(** * Audio pacing, mixing and ring buffer of the Commander X16 emulator

    A shallow embedding of [src/audio.c]: the clock accumulator and the
    render loop of [audio_render], the three-source mixer, the ring of
    pre-allocated sample buffers shared with [audio_callback], and the
    session functions [audio_init] / [audio_close].

    Conventions.
    - A C [int] is a [Z] and every arithmetic operation on it is followed
      by an explicit wrap to 32 bits, two's complement ([CInt.to_int]).
      [int16_t] stores wrap to 16 bits ([CInt.to_int16]).
    - Reads and writes outside an allocated object, and a dereference of
      [NULL], are undefined behaviour: the model returns [Undef].
    - [exit()] is the result [Exit].
    - The producer's two short locked regions and the callback are each
      executed atomically: the model is the sequential interleaving of
      whole loop iterations and whole callback invocations. *)

From Stdlib Require Import ZArith Lia String.
From Stdlib Require QArith Qround.
From stdpp Require Import base option list.

Local Open Scope Z_scope.

(** ** C integer arithmetic *)

Module CInt.

Definition wrap (bits z : Z) : Z :=
  (z + 2 ^ (bits - 1)) mod 2 ^ bits - 2 ^ (bits - 1).

Definition to_int (z : Z) : Z := wrap 32 z.
Definition to_int16 (z : Z) : Z := wrap 16 z.
Definition to_uint32 (z : Z) : Z := z mod 2 ^ 32.

Definition INT_MIN : Z := - 2 ^ 31.
Definition INT_MAX : Z := 2 ^ 31 - 1.

Definition is_int (z : Z) : Prop := INT_MIN ≤ z ≤ INT_MAX.
Definition is_int16 (z : Z) : Prop := -32768 ≤ z ≤ 32767.

Definition add (a b : Z) : Z := to_int (a + b).
Definition sub (a b : Z) : Z := to_int (a - b).
Definition mul (a b : Z) : Z := to_int (a * b).
(** C division truncates toward zero. *)
Definition div (a b : Z) : Z := to_int (Z.quot a b).

End CInt.

Import CInt.

(** ** Constants of the translation unit *)

(** [SAMPLES_PER_BUFFER] of the native build (the [__EMSCRIPTEN__] build
    uses 1024). *)
Definition SAMPLES_PER_BUFFER : Z := 256.
Definition SAMPLERATE : Z := Z.quot 25000000 512.

(** Number of [int16_t] samples in one buffer: [2 * SAMPLES_PER_BUFFER]. *)
Definition buffer_samples : Z := 2 * SAMPLES_PER_BUFFER.
(** Device ticks per rendered buffer: [512 * SAMPLES_PER_BUFFER]. *)
Definition vera_per_buffer : Z := 512 * SAMPLES_PER_BUFFER.
(** [sizeof(int16_t)]. *)
Definition sizeof_int16 : Z := 2.

(** ** Memory objects *)

(** An [int16_t] array (one audio buffer, interleaved stereo). *)
Definition frame := list Z.

Definition frame_sized (f : frame) : Prop :=
  length f = Z.to_nat buffer_samples.

(** Reading element [i] of an [int16_t] array: always a 16-bit value (so
    what [YM_stream_update] wrote through its [uint16_t *] reads back
    signed). An element that was never written is indeterminate in C and
    reads as 0 here. *)
Definition load16 (buf : frame) (i : nat) : Z :=
  to_int16 (default 0 (buf !! i)).

(** Object representation of an [int16_t] ([AUDIO_S16SYS]: host byte
    order; little endian here). *)
Definition int16_bytes (s : Z) : list Z := [s mod 256; (s / 256) mod 256].

Definition frame_bytes (f : frame) : list Z := f ≫= int16_bytes.

(** Reading a byte region back as [int16_t] samples. *)
Fixpoint frame_of_bytes (bytes : list Z) : frame :=
  match bytes with
  | lo :: hi :: bytes' => to_int16 (lo + 256 * hi) :: frame_of_bytes bytes'
  | _ => []
  end.

(** [memset(dst, c, n)] and [memcpy(dst, src, n)] on a byte region. *)
Definition memset (dst : list Z) (c : Z) (n : Z) : list Z :=
  replicate (Z.to_nat n) c ++ drop (Z.to_nat n) dst.

Definition memcpy (dst src : list Z) (n : Z) : list Z :=
  take (Z.to_nat n) src ++ drop (Z.to_nat n) dst.

(** The loop [for (i = 0; i < n; i++) buf[i] = f i]. *)
Definition fill {A} (f : nat → A) (buf : list A) (n : nat) : list A :=
  foldl (λ b i, <[i := f i]> b) buf (seq 0 n).

(** [a[i]] for a C index: [None] outside the array. *)
Definition slot_at {A} (a : list A) (i : Z) : option A :=
  if i <? 0 then None else a !! Z.to_nat i.

(** ** The external sound sources

    [psg_render], [pcm_render] and [YM_stream_update] fill a caller-supplied
    buffer with [2 * n] samples and advance their chip's internal state;
    [YM_Create] and [YM_init] set the FM chip up. *)

Class SoundChips := {
  chips_t : Type;
  psg_render : chips_t → Z → frame * chips_t;
  pcm_render : chips_t → Z → frame * chips_t;
  YM_stream_update : chips_t → Z → frame * chips_t;
  YM_Create : Z → chips_t → chips_t;
  YM_init : Z → Z → chips_t → chips_t
}.

(** ** Diagnostics written to [stderr] *)

Inductive diag : Type :=
| Size_mismatch (expected got : Z)
| Cannot_allocate
| Open_failed.

(** ** Results of a call *)

Inductive result (A : Type) : Type :=
| Ret (a : A)                          (* the call returned *)
| Exit (code : Z) (err : list diag)    (* the process terminated in [exit] *)
| Undef                                (* undefined behaviour *)
| OutOfFuel.                           (* loop bound of the model exhausted *)

Arguments Ret {A} a.
Arguments Exit {A} code err.
Arguments Undef {A}.
Arguments OutOfFuel {A}.

Definition bind {A B} (r : result A) (k : A → result B) : result B :=
  match r with
  | Ret a => k a
  | Exit c e => Exit c e
  | Undef => Undef
  | OutOfFuel => OutOfFuel
  end.

Notation "'do' x <- r ; k" := (bind r (λ x, k))
  (at level 10, x pattern, r at level 100, k at level 200).

Definition of_option {A} (o : option A) : result A :=
  match o with Some a => Ret a | None => Undef end.

Definition result_map {A B} (f : A → B) (r : result A) : result B :=
  do a <- r; Ret (f a).

(** ** The ring seen as a bounded queue *)

Inductive ring_op : Type :=
| Push (t : frame * frame * frame)
| Pop (stream : list Z).

(** ** The host: what [malloc] and [SDL_OpenAudioDevice] answer *)

Record host := {
  (** does the [k]-th [malloc] of [audio_init] (counted from 0) fail? *)
  malloc_fails : nat → bool;
  (** indeterminate contents of the [i]-th freshly allocated buffer *)
  fresh_memory : nat → nat → Z;
  (** identifier returned by [SDL_OpenAudioDevice] (0: failure) *)
  sdl_open : Z;
  (** [obtained.freq] *)
  sdl_freq : Z
}.

Section Audio.

Context `{SC : SoundChips}.

(** ** The file-scope variables, with the sources' state, [stderr] and a
    ghost counter of loop iterations of [audio_render] *)

Record state := mkState {
  audio_dev : Z;
  vera_clks : Z;
  cpu_clks : Z;
  buffers : option (list frame);
  rdidx : Z;
  wridx : Z;
  buf_cnt : Z;
  num_bufs : Z;
  chips : chips_t;
  stderr : list diag;
  renders : Z
}.

Definition set_audio_dev (v : Z) (s : state) : state :=
  mkState v (vera_clks s) (cpu_clks s) (buffers s) (rdidx s) (wridx s)
    (buf_cnt s) (num_bufs s) (chips s) (stderr s) (renders s).
Definition set_vera_clks (v : Z) (s : state) : state :=
  mkState (audio_dev s) v (cpu_clks s) (buffers s) (rdidx s) (wridx s)
    (buf_cnt s) (num_bufs s) (chips s) (stderr s) (renders s).
Definition set_cpu_clks (v : Z) (s : state) : state :=
  mkState (audio_dev s) (vera_clks s) v (buffers s) (rdidx s) (wridx s)
    (buf_cnt s) (num_bufs s) (chips s) (stderr s) (renders s).
Definition set_buffers (v : option (list frame)) (s : state) : state :=
  mkState (audio_dev s) (vera_clks s) (cpu_clks s) v (rdidx s) (wridx s)
    (buf_cnt s) (num_bufs s) (chips s) (stderr s) (renders s).
Definition set_rdidx (v : Z) (s : state) : state :=
  mkState (audio_dev s) (vera_clks s) (cpu_clks s) (buffers s) v (wridx s)
    (buf_cnt s) (num_bufs s) (chips s) (stderr s) (renders s).
Definition set_wridx (v : Z) (s : state) : state :=
  mkState (audio_dev s) (vera_clks s) (cpu_clks s) (buffers s) (rdidx s) v
    (buf_cnt s) (num_bufs s) (chips s) (stderr s) (renders s).
Definition set_buf_cnt (v : Z) (s : state) : state :=
  mkState (audio_dev s) (vera_clks s) (cpu_clks s) (buffers s) (rdidx s)
    (wridx s) v (num_bufs s) (chips s) (stderr s) (renders s).
Definition set_num_bufs (v : Z) (s : state) : state :=
  mkState (audio_dev s) (vera_clks s) (cpu_clks s) (buffers s) (rdidx s)
    (wridx s) (buf_cnt s) v (chips s) (stderr s) (renders s).
Definition set_chips (v : chips_t) (s : state) : state :=
  mkState (audio_dev s) (vera_clks s) (cpu_clks s) (buffers s) (rdidx s)
    (wridx s) (buf_cnt s) (num_bufs s) v (stderr s) (renders s).
Definition fprintf_stderr (d : diag) (s : state) : state :=
  mkState (audio_dev s) (vera_clks s) (cpu_clks s) (buffers s) (rdidx s)
    (wridx s) (buf_cnt s) (num_bufs s) (chips s) (stderr s ++ [d]) (renders s).
Definition count_render (s : state) : state :=
  mkState (audio_dev s) (vera_clks s) (cpu_clks s) (buffers s) (rdidx s)
    (wridx s) (buf_cnt s) (num_bufs s) (chips s) (stderr s) (renders s + 1).

(** The static initialisers. *)
Definition initial_state (c : chips_t) : state :=
  mkState 0 0 0 None 0 0 0 0 c [] 0.

(** ** [audio_callback] *)

Definition audio_callback (st : state) (stream : list Z) (len : Z)
  : result (state * list Z) :=
  if audio_dev st =? 0 then Ret (st, stream)
  else
    let expected := to_int (2 * SAMPLES_PER_BUFFER * sizeof_int16) in
    if negb (len =? expected) then
      Ret (fprintf_stderr (Size_mismatch expected len) st, stream)
    else if buf_cnt st =? 0 then
      Ret (st, memset stream 0 len)
    else
      do bufs <- of_option (buffers st);
      do buf <- of_option (slot_at bufs (rdidx st));
      let stream := memcpy stream (frame_bytes buf) len in
      let st := set_rdidx (add (rdidx st) 1) st in
      let st := if rdidx st =? num_bufs st then set_rdidx 0 st else st in
      Ret (set_buf_cnt (sub (buf_cnt st) 1) st, stream).

(** ** [audio_close] *)

Definition audio_close (st : state) : state :=
  if audio_dev st =? 0 then st
  else set_buffers None (set_audio_dev 0 st).

(** ** [audio_init] *)

Definition is_none_device (dev_name : option string) : bool :=
  match dev_name with
  | Some s => String.eqb "none" s
  | None => false
  end.

(** The allocation loop: slot [i] comes from the [(i+1)]-th [malloc]. *)
Definition fresh_buffer (h : host) (i : nat) : frame :=
  (λ j, to_int16 (fresh_memory h i j)) <$> seq 0 (Z.to_nat buffer_samples).

Fixpoint alloc_buffers (h : host) (i n : nat) : option (list frame) :=
  match n with
  | O => Some []
  | S n' =>
      if malloc_fails h (S i) then None
      else cons (fresh_buffer h i) <$> alloc_buffers h (S i) n'
  end.

Definition audio_init (h : host) (st : state) (dev_name : option string)
    (num_audio_buffers : Z) : result state :=
  let st := if 0 <? audio_dev st then audio_close st else st in
  if is_none_device dev_name then Ret st
  else
    let st := set_num_bufs num_audio_buffers st in
    let st := if num_bufs st <? 3 then set_num_bufs 3 st else st in
    let st := if 1024 <? num_bufs st then set_num_bufs 1024 st else st in
    if malloc_fails h 0 then
      Exit 1 (stderr st ++ [Cannot_allocate])
    else
      match alloc_buffers h 0 (Z.to_nat (num_bufs st)) with
      | None => Exit 1 (stderr st ++ [Cannot_allocate])
      | Some bufs =>
          let st := set_buffers (Some bufs) st in
          let st := set_audio_dev (to_uint32 (sdl_open h)) st in
          if audio_dev st <=? 0 then
            let err := stderr st ++ [Open_failed] in
            match dev_name with
            | Some _ => Exit 1 err       (* [audio_usage] ends in [exit(1)] *)
            | None => Exit (-1) err
            end
          else
            let c := YM_init (sdl_freq h) 60 (YM_Create 3579545 (chips st)) in
            Ret (set_chips c st)
      end.

(** ** [audio_render] *)

(** One mixed sample: the sum in [int], the division by 3, the store into
    an [int16_t]. *)
Definition mix_sample (a b c : Z) : Z :=
  to_int16 (div (add (add a b) c) 3).

(** The mixing loop over [i = 0 .. 2 * SAMPLES_PER_BUFFER - 1]. *)
Definition mix_into (buf psg_buf pcm_buf ym_buf : frame) : frame :=
  fill (λ i, mix_sample (load16 psg_buf i) (load16 pcm_buf i)
                        (load16 ym_buf i))
       buf (Z.to_nat buffer_samples).

(** The frame the mixing loop leaves in a slot of full size, whatever
    the slot held before (lemma [mix_into_frame]). *)
Definition mix_frame (psg_buf pcm_buf ym_buf : frame) : frame :=
  (λ i, mix_sample (load16 psg_buf i) (load16 pcm_buf i) (load16 ym_buf i))
    <$> seq 0 (Z.to_nat buffer_samples).

(** The mixed frame of one triple of source buffers. *)
Definition mixed (t : frame * frame * frame) : frame :=
  mix_frame t.1.1 t.1.2 t.2.

(** Lines 171-190: test for a free slot, mix into slot [wridx], advance.
    The flag is [buf_available]. *)
Definition ring_push (psg_buf pcm_buf ym_buf : frame) (st : state)
  : result (bool * state) :=
  let buf_available := buf_cnt st <? num_bufs st in
  if buf_available then
    do bufs <- of_option (buffers st);
    do buf <- of_option (slot_at bufs (wridx st));
    let bufs := <[Z.to_nat (wridx st) := mix_into buf psg_buf pcm_buf ym_buf]> bufs in
    let st := set_buffers (Some bufs) st in
    let st := set_wridx (add (wridx st) 1) st in
    let st := if wridx st =? num_bufs st then set_wridx 0 st else st in
    Ret (true, set_buf_cnt (add (buf_cnt st) 1) st)
  else Ret (false, st).

(** The body of the [while] loop. *)
Definition render_buffer (st : state) : result state :=
  let st := set_vera_clks (sub (vera_clks st) vera_per_buffer) st in
  let '(psg_buf, c) := psg_render (chips st) SAMPLES_PER_BUFFER in
  let '(pcm_buf, c) := pcm_render c SAMPLES_PER_BUFFER in
  let '(ym_buf, c) := YM_stream_update c SAMPLES_PER_BUFFER in
  let st := count_render (set_chips c st) in
  do r <- ring_push psg_buf pcm_buf ym_buf st;
  Ret r.2.

(** [while (vera_clks >= 512 * SAMPLES_PER_BUFFER) { ... }] *)
Fixpoint render_loop (fuel : nat) (st : state) : result state :=
  if vera_per_buffer <=? vera_clks st then
    match fuel with
    | O => OutOfFuel
    | S fuel' => do st' <- render_buffer st; render_loop fuel' st'
    end
  else Ret st.

(** Iterations the loop can make from [st]: each one takes
    [vera_per_buffer] off [vera_clks]. *)
Definition loop_bound (st : state) : nat :=
  Z.to_nat (vera_clks st / vera_per_buffer).

Definition audio_render (st : state) (cpu_clocks : Z) : result state :=
  if audio_dev st =? 0 then Ret st
  else
    let st := set_cpu_clks (add (cpu_clks st) cpu_clocks) st in
    let st :=
      if 8 <? cpu_clks st then
        let c := div (cpu_clks st) 8 in
        let st := set_cpu_clks (sub (cpu_clks st) (mul c 8)) st in
        set_vera_clks (add (vera_clks st) (mul c 25)) st
      else st in
    render_loop (loop_bound st) st.

(** ** Sequences of calls *)

(** [audio_render(n1); audio_render(n2); ...] *)
Fixpoint render_all (st : state) (ticks : list Z) : result state :=
  match ticks with
  | [] => Ret st
  | n :: ticks' => do st' <- audio_render st n; render_all st' ticks'
  end.

(** Pushing the frames of [fs] one after the other; the flags are the
    successive values of [buf_available]. *)
Fixpoint push_all (fs : list (frame * frame * frame)) (st : state)
  : result (list bool * state) :=
  match fs with
  | [] => Ret ([], st)
  | (psg_buf, pcm_buf, ym_buf) :: fs' =>
      do r <- ring_push psg_buf pcm_buf ym_buf st;
      do rs <- push_all fs' r.2;
      Ret (r.1 :: rs.1, rs.2)
  end.

(** One callback per output region of [streams], each asked for the
    expected length; the result lists the regions as the callback left
    them. *)
Fixpoint pop_all (streams : list (list Z)) (st : state)
  : result (list (list Z) * state) :=
  match streams with
  | [] => Ret ([], st)
  | stream :: streams' =>
      do r <- audio_callback st stream (2 * SAMPLES_PER_BUFFER * sizeof_int16);
      do rs <- pop_all streams' r.1;
      Ret (r.2 :: rs.1, rs.2)
  end.

(** ** Invariant of an open session *)

(** Slot index of the [k]-th queued buffer, counted from the read index. *)
Definition ring_index (st : state) (k : Z) : Z :=
  if rdidx st + k <? num_bufs st then rdidx st + k
  else rdidx st + k - num_bufs st.

Record session_ok (st : state) : Prop := {
  ok_dev : 0 < audio_dev st;
  ok_cap : 3 ≤ num_bufs st ≤ 1024;
  ok_buffers :
    ∃ bufs, buffers st = Some bufs
            ∧ Z.of_nat (length bufs) = num_bufs st
            ∧ Forall frame_sized bufs;
  ok_rd : 0 ≤ rdidx st < num_bufs st;
  ok_cnt : 0 ≤ buf_cnt st ≤ num_bufs st;
  ok_wr : wridx st = ring_index st (buf_cnt st)
}.

(** The ring holds the frames [q], oldest first. *)
Definition ring_holds (st : state) (q : list frame) : Prop :=
  session_ok st
  ∧ Z.of_nat (length q) = buf_cnt st
  ∧ ∀ (k : nat) (f : frame), q !! k = Some f →
      ∃ bufs, buffers st = Some bufs
              ∧ slot_at bufs (ring_index st (Z.of_nat k)) = Some f.

(** Fields that neither a push nor a pop touches. *)
Definition same_session (st st' : state) : Prop :=
  audio_dev st' = audio_dev st ∧ num_bufs st' = num_bufs st
  ∧ vera_clks st' = vera_clks st ∧ cpu_clks st' = cpu_clks st
  ∧ renders st' = renders st ∧ chips st' = chips st
  ∧ stderr st' = stderr st.

(** The carried clock remainders of a session between two calls. *)
Definition clocks_ok (st : state) : Prop :=
  0 ≤ cpu_clks st ≤ 8 ∧ 0 ≤ vera_clks st < vera_per_buffer.

(** What the callback is to leave in the first [len] bytes of the output
    region: silence when the ring is empty, else the bytes of the slot at
    the read index. *)
Definition region_written (st : state) (len : Z) (out : list Z) : Prop :=
  if buf_cnt st =? 0 then
    take (Z.to_nat len) out = replicate (Z.to_nat len) 0
  else
    ∃ bufs buf, buffers st = Some bufs
                ∧ slot_at bufs (rdidx st) = Some buf
                ∧ take (Z.to_nat len) out = take (Z.to_nat len) (frame_bytes buf).

(** ** Interleavings of the producer and the consumer *)

(** A call from either thread. *)
Inductive op : Type :=
| Render (cpu_clocks : Z)
| Callback (stream : list Z) (len : Z).

(** The calls of [ops] in order; the result lists the output regions as
    the callbacks left them. *)
Fixpoint run (ops : list op) (st : state) : result (list (list Z) * state) :=
  match ops with
  | [] => Ret ([], st)
  | Render n :: ops' => do st' <- audio_render st n; run ops' st'
  | Callback stream len :: ops' =>
      do r <- audio_callback st stream len;
      do rs <- run ops' r.1;
      Ret (r.2 :: rs.1, rs.2)
  end.

(** Pushes (lines 171-190) and callbacks asked for the expected length,
    in any order; a push answers [buf_available], a callback the region
    as it left it. *)
Fixpoint ring_run (ops : list ring_op) (st : state)
  : result (list (bool + list Z) * state) :=
  match ops with
  | [] => Ret ([], st)
  | Push t :: ops' =>
      do r <- ring_push t.1.1 t.1.2 t.2 st;
      do rs <- ring_run ops' r.2;
      Ret (inl r.1 :: rs.1, rs.2)
  | Pop stream :: ops' =>
      do r <- audio_callback st stream (2 * SAMPLES_PER_BUFFER * sizeof_int16);
      do rs <- ring_run ops' r.1;
      Ret (inr r.2 :: rs.1, rs.2)
  end.

(** The invariant as a test. *)
Definition session_okb (st : state) : bool :=
  (0 <? audio_dev st) && (3 <=? num_bufs st) && (num_bufs st <=? 1024)
  && match buffers st with
     | Some bufs =>
         (Z.of_nat (length bufs) =? num_bufs st)
         && forallb (λ f : frame,
                       Nat.eqb (length f) (Z.to_nat buffer_samples)) bufs
     | None => false
     end
  && (0 <=? rdidx st) && (rdidx st <? num_bufs st)
  && (0 <=? buf_cnt st) && (buf_cnt st <=? num_bufs st)
  && (wridx st =? ring_index st (buf_cnt st)).

(** The session [audio_init] goes on from, once a device that was open is
    closed and the buffer count is set. *)
Definition init_base (st : state) (num_audio_buffers : Z) : state :=
  set_num_bufs (Z.max 3 (Z.min 1024 num_audio_buffers))
    (if 0 <? audio_dev st then audio_close st else st).

End Audio.

(** ** Reference values of the specification *)

(** The requested buffer count clamped to [3, 1024]. *)
Definition clamp_bufs (n : Z) : Z := Z.max 3 (Z.min 1024 n).

(** Largest tick argument for which no [int] operation of [audio_render]
    overflows, from a state with [cpu_clks ≤ 8] and
    [vera_clks < vera_per_buffer]. *)
Definition max_cpu_clocks : Z := 687152823.

Definition total_ticks (ticks : list Z) : Z := foldr Z.add 0 ticks.

(** The number of triggers as the specification words it: the cumulative
    processor ticks converted at 25 device ticks per 8 processor ticks and
    divided by the threshold, in exact rational arithmetic, then floored. *)
Definition exact_trigger_count (ticks : list Z) : Z :=
  Qround.Qfloor
    (QArith_base.Qdiv
       (QArith_base.Qmult (QArith_base.inject_Z (total_ticks ticks))
                          (QArith_base.Qmake 25 8))
       (QArith_base.inject_Z vera_per_buffer)).

(** The same count with ticks converted in whole groups of 8 only. *)
Definition grouped_trigger_count (ticks : list Z) : Z :=
  (25 * (total_ticks ticks / 8)) / vera_per_buffer.

(** ** A concrete session, for examples *)

(** Sources whose state is a counter: every call fills the buffer with
    one value derived from it. *)
#[export] Instance counting_chips : SoundChips := {|
  chips_t := Z;
  psg_render := λ c n, (replicate (Z.to_nat (2 * n)) (to_int16 (3 * c)), c + 1);
  pcm_render := λ c n, (replicate (Z.to_nat (2 * n)) (to_int16 (5 * c)), c + 1);
  YM_stream_update := λ c n, (replicate (Z.to_nat (2 * n)) (to_int16 (- c)), c + 1);
  YM_Create := λ _ c, c;
  YM_init := λ _ _ c, c
|}.

Definition plain_host : host := {|
  malloc_fails := λ _, false;
  fresh_memory := λ i j, Z.of_nat (i + j);
  sdl_open := 2;
  sdl_freq := 48828
|}.

(** The static initial state, and the session after [audio_init(NULL, 3)]
    on it. *)
Definition closed_session : state := initial_state (SC := counting_chips) 0.

Definition open_session : state :=
  match audio_init plain_host closed_session None 3 with
  | Ret st => st
  | _ => closed_session
  end.

(** A constant frame, three triples of source buffers and a fourth, and
    an output region of the expected size holding stale bytes. *)
Definition flat (v : Z) : frame := replicate (Z.to_nat buffer_samples) v.

Definition triple (v : Z) : frame * frame * frame :=
  (flat v, flat (2 * v), flat (3 * v + 1)).

Definition three_triples : list (frame * frame * frame) :=
  [triple 10; triple (-20); triple 30].

Definition stale_region : list Z := replicate (Z.to_nat 1024) 7.

(** A session of 8 slots after 5 pushes and 4 callbacks: read index 4,
    write index 5, one buffer queued; and the same opened again with 3
    slots. *)
Definition busy_session : state :=
  match
    (do st <- audio_init plain_host closed_session None 8;
     do r <- push_all (triple <$> [1; 2; 3; 4; 5]) st;
     do r' <- pop_all (replicate 4 stale_region) r.2;
     Ret r'.2)
  with
  | Ret st => st
  | _ => closed_session
  end.

Definition reopened_session : state :=
  match audio_init plain_host busy_session None 3 with
  | Ret st => st
  | _ => closed_session
  end.

(** A host whose third [malloc] (the second slot) fails, and one whose
    device does not open. *)
Definition starved_host : host := {|
  malloc_fails := λ k, Nat.eqb k 2;
  fresh_memory := λ i j, Z.of_nat (i + j);
  sdl_open := 2;
  sdl_freq := 48828
|}.

Definition deaf_host : host := {|
  malloc_fails := λ _, false;
  fresh_memory := λ i j, Z.of_nat (i + j);
  sdl_open := 0;
  sdl_freq := 48828
|}.

(** ** A bounded first-in first-out queue of frames

    The reference the ring is compared with: a push appends the mixed
    frame while fewer than [cap] frames are queued and is refused
    otherwise; a pop of the expected length copies the oldest frame over
    the region, or zeros when the queue is empty. *)
Definition queue_step (cap : nat) (q : list frame) (o : ring_op)
  : (bool + list Z) * list frame :=
  match o with
  | Push t =>
      if decide (length q < cap)%nat then (inl true, q ++ [mixed t])
      else (inl false, q)
  | Pop stream =>
      match q with
      | [] => (inr (memset stream 0 1024), [])
      | f :: q' => (inr (memcpy stream (frame_bytes f) 1024), q')
      end
  end.

Fixpoint queue_run (cap : nat) (ops : list ring_op) (q : list frame)
  : list (bool + list Z) * list frame :=
  match ops with
  | [] => ([], q)
  | o :: ops' =>
      let r := queue_step cap q o in
      let rs := queue_run cap ops' r.2 in
      (r.1 :: rs.1, rs.2)
  end.

(** ** Integer facts *)

Lemma to_int_id z : is_int z → to_int z = z.
Proof.
  unfold is_int, INT_MIN, INT_MAX, to_int, wrap. intros Hz.
  change (2 ^ (32 - 1)) with 2147483648 in *.
  change (2 ^ 32) with 4294967296.
  change (2 ^ 31) with 2147483648 in Hz.
  rewrite Z.mod_small; lia.
Qed.

Lemma to_int16_id z : is_int16 z → to_int16 z = z.
Proof.
  unfold is_int16, to_int16, wrap. intros Hz.
  change (2 ^ (16 - 1)) with 32768.
  change (2 ^ 16) with 65536.
  rewrite Z.mod_small; lia.
Qed.

Lemma to_int16_is_int16 z : is_int16 (to_int16 z).
Proof.
  unfold is_int16, to_int16, wrap.
  change (2 ^ (16 - 1)) with 32768.
  change (2 ^ 16) with 65536.
  pose proof (Z.mod_pos_bound (z + 32768) 65536). lia.
Qed.

Lemma add_id a b : is_int (a + b) → add a b = a + b.
Proof. apply to_int_id. Qed.

Lemma sub_id a b : is_int (a - b) → sub a b = a - b.
Proof. apply to_int_id. Qed.

Lemma mul_id a b : is_int (a * b) → mul a b = a * b.
Proof. apply to_int_id. Qed.

Lemma div_id a b : is_int (Z.quot a b) → div a b = Z.quot a b.
Proof. apply to_int_id. Qed.

Lemma is_int_bounds z : is_int z ↔ -2147483648 ≤ z ≤ 2147483647.
Proof. reflexivity. Qed.

(** ** The mixer *)

Lemma mix_sample_wide a b c :
  is_int16 a → is_int16 b → is_int16 c →
  div (add (add a b) c) 3 = Z.quot (a + b + c) 3
  ∧ is_int16 (Z.quot (a + b + c) 3).
Proof.
  unfold is_int16. intros Ha Hb Hc.
  assert (Hq : -32768 ≤ Z.quot (a + b + c) 3 ≤ 32767).
  { Z.to_euclidean_division_equations. lia. }
  split; [| exact Hq].
  rewrite (add_id a b) by (apply is_int_bounds; lia).
  rewrite add_id by (apply is_int_bounds; lia).
  apply div_id, is_int_bounds. lia.
Qed.

Lemma mix_sample_quot a b c :
  is_int16 a → is_int16 b → is_int16 c →
  mix_sample a b c = Z.quot (a + b + c) 3.
Proof.
  intros Ha Hb Hc. unfold mix_sample.
  destruct (mix_sample_wide a b c Ha Hb Hc) as [-> Hq].
  by apply to_int16_id.
Qed.

Section Overwrite.
Context {A : Type} (f : nat → A).

Lemma fill_S buf n : fill f buf (S n) = <[n := f n]> (fill f buf n).
Proof. unfold fill. by rewrite seq_S, foldl_app. Qed.

Lemma length_fill buf n : length (fill f buf n) = length buf.
Proof.
  induction n as [| n IH]; [done |].
  by rewrite fill_S, length_insert.
Qed.

Lemma fill_lookup_lt buf n i :
  (i < n)%nat → (n ≤ length buf)%nat → fill f buf n !! i = Some (f i).
Proof.
  induction n as [| n IH]; intros Hi Hn; [lia |].
  rewrite fill_S.
  destruct (decide (i = n)) as [-> | Hne].
  - apply list_lookup_insert_eq. rewrite length_fill. lia.
  - rewrite list_lookup_insert_ne by done. apply IH; lia.
Qed.

Lemma fill_all buf n : length buf = n → fill f buf n = f <$> seq 0 n.
Proof.
  intros Hlen. apply list_eq. intros i.
  destruct (decide (i < n)%nat) as [Hi | Hi].
  - rewrite fill_lookup_lt by lia.
    rewrite list_lookup_fmap, lookup_seq_lt by done. done.
  - rewrite !lookup_ge_None_2; [done | |].
    + rewrite length_fmap, length_seq. lia.
    + rewrite length_fill. lia.
Qed.
End Overwrite.

Lemma mix_into_frame buf psg pcm ym :
  frame_sized buf → mix_into buf psg pcm ym = mix_frame psg pcm ym.
Proof. intros Hlen. unfold mix_into, mix_frame. by apply fill_all. Qed.

Lemma mix_frame_sized psg pcm ym : frame_sized (mix_frame psg pcm ym).
Proof. unfold frame_sized, mix_frame. by rewrite length_fmap, length_seq. Qed.

Lemma load16_int16 buf i a :
  buf !! i = Some a → is_int16 a → load16 buf i = a.
Proof. intros Hi Ha. unfold load16. rewrite Hi. by apply to_int16_id. Qed.

(** C10. For 16-bit samples the average computed in [int] lies in
    [-32768, 32767], so the store into the [int16_t] slot keeps its value. *)
Theorem mix_store_keeps_value (a b c : Z) :
  is_int16 a → is_int16 b → is_int16 c →
  let wide := div (add (add a b) c) 3 in
  -32768 ≤ wide ≤ 32767 ∧ to_int16 wide = wide ∧ mix_sample a b c = wide.
Proof.
  intros Ha Hb Hc wide. subst wide.
  destruct (mix_sample_wide a b c Ha Hb Hc) as [Heq Hq].
  rewrite Heq. split; [exact Hq |].
  split; [by apply to_int16_id | by apply mix_sample_quot].
Qed.

Lemma mix_store_keeps_value_witness :
  -32768 ≤ div (add (add 32767 (-32768)) 1200) 3 ≤ 32767
  ∧ to_int16 (div (add (add 32767 (-32768)) 1200) 3)
    = div (add (add 32767 (-32768)) 1200) 3
  ∧ mix_sample 32767 (-32768) 1200 = div (add (add 32767 (-32768)) 1200) 3.
Proof.
  apply (mix_store_keeps_value 32767 (-32768) 1200);
    unfold is_int16; lia.
Defined.

(** C6. Every sample of the mixed frame is the average of the three
    sources' samples, truncated toward zero; the three reference values. *)
Theorem mix_is_truncated_average
    (buf psg_buf pcm_buf ym_buf : frame) (i : nat) (a b c : Z) :
  frame_sized buf → (i < Z.to_nat buffer_samples)%nat →
  psg_buf !! i = Some a → pcm_buf !! i = Some b → ym_buf !! i = Some c →
  is_int16 a → is_int16 b → is_int16 c →
  mix_into buf psg_buf pcm_buf ym_buf !! i = Some (Z.quot (a + b + c) 3)
  ∧ mix_sample 32767 32767 32767 = 32767
  ∧ mix_sample (-32768) (-32768) (-32768) = Z.quot (-98304) 3
  ∧ mix_sample 3 4 5 = 4.
Proof.
  intros Hbuf Hi Ha Hb Hc Ra Rb Rc.
  split; [| by vm_compute].
  unfold mix_into.
  rewrite (fill_lookup_lt _ buf _ i Hi) by (unfold frame_sized in Hbuf; lia).
  rewrite (load16_int16 psg_buf i a), (load16_int16 pcm_buf i b),
    (load16_int16 ym_buf i c) by done.
  by rewrite mix_sample_quot.
Qed.

Lemma mix_is_truncated_average_witness :
  mix_into (flat 9) (flat (-7)) (flat (-2)) (flat 1) !! 300%nat
    = Some (Z.quot (-7 + -2 + 1) 3)
  ∧ mix_sample 32767 32767 32767 = 32767
  ∧ mix_sample (-32768) (-32768) (-32768) = Z.quot (-98304) 3
  ∧ mix_sample 3 4 5 = 4.
Proof.
  apply (mix_is_truncated_average (flat 9) (flat (-7)) (flat (-2)) (flat 1)
           300 (-7) (-2) 1);
    first [ reflexivity | vm_compute; lia | unfold is_int16; lia ].
Defined.

(** ** Session functions *)

(** ** The byte representation of a frame *)

Lemma int16_of_bytes (s : Z) :
  is_int16 s → to_int16 (s mod 256 + 256 * ((s / 256) mod 256)) = s.
Proof.
  unfold is_int16, to_int16, wrap. intros Hs.
  change (2 ^ (16 - 1)) with 32768. change (2 ^ 16) with 65536.
  Z.to_euclidean_division_equations. lia.
Qed.

Lemma frame_of_bytes_frame_bytes (f : frame) :
  Forall is_int16 f → frame_of_bytes (frame_bytes f) = f.
Proof.
  unfold frame_bytes. induction 1 as [| s f Hs _ IH]; [done |].
  cbn. by rewrite int16_of_bytes, IH.
Qed.

Lemma mix_frame_int16 psg pcm ym : Forall is_int16 (mix_frame psg pcm ym).
Proof.
  unfold mix_frame. apply Forall_fmap, Forall_true. intros i.
  apply to_int16_is_int16.
Qed.

Section Session.
Context `{SC : SoundChips}.

Implicit Types (st : state) (h : host).

Lemma alloc_buffers_sized h i n bufs :
  alloc_buffers h i n = Some bufs →
  length bufs = n ∧ Forall frame_sized bufs.
Proof.
  revert i bufs. induction n as [| n IH]; intros i bufs; simpl.
  - intros [= <-]. by split.
  - destruct (malloc_fails h (S i)); [done |].
    destruct (alloc_buffers h (S i) n) as [tl |] eqn:Htl; [| done].
    intros [= <-]. destruct (IH _ _ Htl) as [Hlen Hall].
    split; [simpl; by rewrite Hlen |].
    constructor; [| done].
    unfold frame_sized, fresh_buffer. by rewrite length_fmap, length_seq.
Qed.

Lemma alloc_buffers_succeeds h i n :
  (∀ k, malloc_fails h k = false) → is_Some (alloc_buffers h i n).
Proof.
  intros Hm. revert i. induction n as [| n IH]; intros i; simpl; [done |].
  rewrite Hm. destruct (IH (S i)) as [tl ->]. done.
Qed.

(** A successful [audio_init] on a closed session whose ring variables
    still have their initial values opens a session that satisfies the
    invariant and keeps the clock variables. *)
Lemma audio_init_opens_session h st (dev_name : option string) (n : Z) st' :
  audio_dev st = 0 → rdidx st = 0 → wridx st = 0 → buf_cnt st = 0 →
  is_none_device dev_name = false →
  audio_init h st dev_name n = Ret st' →
  session_ok st'
  ∧ vera_clks st' = vera_clks st ∧ cpu_clks st' = cpu_clks st
  ∧ renders st' = renders st ∧ buf_cnt st' = 0.
Proof.
  intros Hdev Hrd Hwr Hcnt Hnone. unfold audio_init.
  rewrite Hnone, Hdev. cbn [Z.ltb Z.compare].
  cbv zeta.
  set (st3 := if 1024 <? _ then _ else _).
  assert (Hst3 : 3 ≤ num_bufs st3 ≤ 1024 ∧ rdidx st3 = 0 ∧ wridx st3 = 0
                 ∧ buf_cnt st3 = 0 ∧ vera_clks st3 = vera_clks st
                 ∧ cpu_clks st3 = cpu_clks st ∧ renders st3 = renders st).
  { subst st3. cbn.
    destruct (Z.ltb_spec n 3); cbn.
    - destruct (Z.ltb_spec 1024 3); [lia |]. cbn. repeat split; (done || lia).
    - destruct (Z.ltb_spec 1024 n); cbn; repeat split; (done || lia). }
  destruct Hst3 as (Hcap & Hrd3 & Hwr3 & Hcnt3 & Hv3 & Hc3 & Hr3).
  destruct (malloc_fails h 0); [done |].
  destruct (alloc_buffers h 0 (Z.to_nat (num_bufs st3))) as [bufs |] eqn:Hb;
    [| done].
  apply alloc_buffers_sized in Hb as [Hlen Hsized].
  cbn. destruct (Z.leb_spec (to_uint32 (sdl_open h)) 0) as [Hle | Hopen].
  - by destruct dev_name.
  - intros [= <-]. cbn. split; [| done].
    constructor; cbn; rewrite ?Hrd3, ?Hwr3, ?Hcnt3; try lia.
    + exists bufs. split; [done |]. split; [lia | done].
    + unfold ring_index. cbn. rewrite Hrd3.
      destruct (Z.ltb_spec (0 + 0) (num_bufs st3)); lia.
Qed.

(** C9. [audio_init] with a selector other than "none" clamps the
    requested buffer count to [3, 1024] and allocates that many slots:
    1 gives 3, 5000 gives 1024, 3 gives 3, an in-range request is kept. *)
Theorem init_clamps_buffer_count h st (dev_name : option string) (n : Z) :
  is_none_device dev_name = false →
  (∀ st', audio_init h st dev_name n = Ret st' →
      num_bufs st' = clamp_bufs n
      ∧ ∃ bufs, buffers st' = Some bufs
                ∧ Z.of_nat (length bufs) = clamp_bufs n)
  ∧ ((∀ k, malloc_fails h k = false) → to_uint32 (sdl_open h) ≠ 0 →
      ∃ st', audio_init h st dev_name n = Ret st')
  ∧ 3 ≤ clamp_bufs n ≤ 1024
  ∧ (3 ≤ n ≤ 1024 → clamp_bufs n = n)
  ∧ (n = 1 → clamp_bufs n = 3)
  ∧ (n = 5000 → clamp_bufs n = 1024)
  ∧ (n = 3 → clamp_bufs n = 3).
Proof.
  intros Hdev.
  assert (Hclamp :
    num_bufs
      (let st1 := set_num_bufs n
                    (if 0 <? audio_dev st then audio_close st else st) in
       let st2 := if num_bufs st1 <? 3 then set_num_bufs 3 st1 else st1 in
       if 1024 <? num_bufs st2 then set_num_bufs 1024 st2 else st2)
    = clamp_bufs n).
  { unfold clamp_bufs. cbn.
    destruct (Z.ltb_spec n 3); cbn.
    - destruct (Z.ltb_spec 1024 3); [lia |]. cbn. lia.
    - destruct (Z.ltb_spec 1024 n); cbn; lia. }
  unfold audio_init. rewrite Hdev.
  cbv zeta in Hclamp |- *.
  set (st3 := if 1024 <? _ then _ else _) in Hclamp |- *.
  split; [| split].
  - intros st'.
    destruct (malloc_fails h 0); [done |].
    destruct (alloc_buffers h 0 (Z.to_nat (num_bufs st3))) as [bufs |] eqn:Hb;
      [| done].
    apply alloc_buffers_sized in Hb as [Hlen _].
    cbn. destruct (to_uint32 (sdl_open h) <=? 0).
    + by destruct dev_name.
    + intros [= <-]. cbn. split; [done |].
      exists bufs. split; [done |].
      rewrite Hlen, Hclamp. unfold clamp_bufs. lia.
  - intros Hm Hopen. rewrite Hm.
    destruct (alloc_buffers_succeeds h 0 (Z.to_nat (num_bufs st3)) Hm)
      as [bufs ->].
    cbn. destruct (Z.leb_spec (to_uint32 (sdl_open h)) 0) as [Hle | _].
    + unfold to_uint32 in *.
      pose proof (Z.mod_pos_bound (sdl_open h) (2 ^ 32)). lia.
    + eauto.
  - unfold clamp_bufs. lia.
Qed.

(** C8. [audio_init("none", n)] returns at once, whatever the host would
    answer: no device is open afterwards and nothing was allocated; from
    then on every [audio_render], [audio_close] and callback leaves the
    state as it is, so no buffer is ever produced. *)
Theorem none_device_disables_audio h st (n : Z) :
  0 ≤ audio_dev st →
  ∃ st', audio_init h st (Some "none"%string) n = Ret st'
    ∧ st' = audio_close st
    ∧ audio_dev st' = 0
    ∧ (audio_dev st = 0 → st' = st)
    ∧ (buffers st' = buffers st ∨ buffers st' = None)
    ∧ num_bufs st' = num_bufs st
    ∧ (∀ k, audio_render st' k = Ret st')
    ∧ (∀ ticks, render_all st' ticks = Ret st')
    ∧ audio_close st' = st'
    ∧ (∀ stream len, audio_callback st' stream len = Ret (st', stream)).
Proof.
  intros Hdev. exists (audio_close st).
  assert (Hclosed : audio_dev (audio_close st) = 0).
  { unfold audio_close. destruct (Z.eqb_spec (audio_dev st) 0); done. }
  assert (Hrender : ∀ k, audio_render (audio_close st) k = Ret (audio_close st)).
  { intros k. unfold audio_render. by rewrite Hclosed. }
  repeat split.
  - unfold audio_init. cbn.
    destruct (Z.ltb_spec 0 (audio_dev st)) as [Hlt | Hge]; [done |].
    unfold audio_close. destruct (Z.eqb_spec (audio_dev st) 0); [done | lia].
  - done.
  - intros H0. unfold audio_close. by rewrite H0.
  - unfold audio_close. destruct (audio_dev st =? 0); [by left | by right].
  - unfold audio_close. by destruct (audio_dev st =? 0).
  - done.
  - intros ticks. induction ticks as [| k ticks IH]; [done |].
    cbn. by rewrite Hrender.
  - unfold audio_close at 1. by rewrite Hclosed.
  - intros stream len. unfold audio_callback. by rewrite Hclosed.
Qed.

(** ** The callback *)

Lemma length_frame_bytes (f : frame) :
  length (frame_bytes f) = (2 * length f)%nat.
Proof.
  unfold frame_bytes. induction f as [| s f IH]; [done |].
  cbn. rewrite IH. lia.
Qed.

Lemma slot_at_Some {A} (l : list A) (i : Z) :
  0 ≤ i < Z.of_nat (length l) → is_Some (slot_at l i).
Proof.
  intros Hi. unfold slot_at.
  destruct (Z.ltb_spec i 0); [lia |].
  apply lookup_lt_is_Some. lia.
Qed.

Lemma slot_at_nat {A} (l : list A) (i : Z) :
  0 ≤ i → slot_at l i = l !! Z.to_nat i.
Proof. intros Hi. unfold slot_at. destruct (Z.ltb_spec i 0); [lia | done]. Qed.

Lemma callback_closed st stream len :
  audio_dev st = 0 → audio_callback st stream len = Ret (st, stream).
Proof. intros H0. unfold audio_callback. by rewrite H0. Qed.

Lemma expected_bytes :
  to_int (2 * SAMPLES_PER_BUFFER * sizeof_int16) = 1024.
Proof. reflexivity. Qed.

(** C2 (as the code has it). On an open device a request of another
    length than the buffer's byte size is reported on [stderr] and the
    callback returns: the process goes on, the output region and the ring
    are as before. *)
Theorem callback_mismatch_reported st (stream : list Z) (len : Z) :
  audio_dev st ≠ 0 →
  len ≠ 2 * SAMPLES_PER_BUFFER * sizeof_int16 →
  audio_callback st stream len
    = Ret (fprintf_stderr (Size_mismatch 1024 len) st, stream)
  ∧ stderr (fprintf_stderr (Size_mismatch 1024 len) st)
      = stderr st ++ [Size_mismatch 1024 len]
  ∧ (∀ code err, audio_callback st stream len ≠ Exit code err).
Proof.
  intros Hdev Hlen.
  assert (Heq : audio_callback st stream len
                = Ret (fprintf_stderr (Size_mismatch 1024 len) st, stream)).
  { unfold audio_callback.
    destruct (Z.eqb_spec (audio_dev st) 0); [done |].
    rewrite expected_bytes.
    destruct (Z.eqb_spec len 1024) as [-> | _]; [| done].
    by destruct Hlen. }
  split; [done |]. split; [done |].
  intros code err. by rewrite Heq.
Qed.

(** C3 (as the code has it). On an open session the callback, asked for
    exactly the buffer's byte size, overwrites the whole requested region:
    with the bytes of the slot at the read index when the ring holds a
    buffer, with zeros when it is empty; bytes past the region are kept.
    Asked for any other length it returns with the region as it found it. *)
Theorem callback_overwrites_region st (stream : list Z) (len : Z) :
  session_ok st →
  (Z.to_nat len ≤ length stream)%nat →
  (len = 2 * SAMPLES_PER_BUFFER * sizeof_int16 →
   ∃ st' out, audio_callback st stream len = Ret (st', out)
     ∧ region_written st len out
     ∧ length out = length stream
     ∧ drop (Z.to_nat len) out = drop (Z.to_nat len) stream)
  ∧ (len ≠ 2 * SAMPLES_PER_BUFFER * sizeof_int16 →
     ∃ st', audio_callback st stream len = Ret (st', stream)).
Proof.
  intros Hok Hstream.
  destruct Hok as [Hdev Hcap (bufs & Hbufs & Hlen & Hsized) Hrd Hcnt Hwr].
  unfold audio_callback, region_written.
  destruct (Z.eqb_spec (audio_dev st) 0); [lia |].
  rewrite expected_bytes.
  change (2 * SAMPLES_PER_BUFFER * sizeof_int16) with 1024 in *.
  split.
  2:{ intros Hne. destruct (Z.eqb_spec len 1024); [done |]. cbn. eauto. }
  intros ->. rewrite Z.eqb_refl. cbn [negb].
  destruct (Z.eqb_spec (buf_cnt st) 0) as [Hempty | Hsome].
  - eexists _, _. split; [done |]. unfold memset.
    split; [| split].
    + by rewrite take_app_length' by by rewrite length_replicate.
    + rewrite length_app, length_replicate, length_drop. lia.
    + by rewrite drop_app_length' by by rewrite length_replicate.
  - rewrite Hbufs. cbn [of_option bind].
    destruct (slot_at_Some bufs (rdidx st)) as [buf Hbuf]; [lia |].
    rewrite Hbuf. cbn [of_option bind].
    assert (Hfb : length (frame_bytes buf) = Z.to_nat 1024).
    { rewrite length_frame_bytes.
      rewrite slot_at_nat in Hbuf by lia.
      rewrite Forall_lookup in Hsized. rewrite (Hsized _ _ Hbuf). done. }
    eexists _, _. split; [done |]. unfold memcpy.
    rewrite (take_ge (frame_bytes buf)) by lia.
    split; [| split].
    + exists bufs, buf. split; [done |]. split; [done |].
      rewrite take_app_length' by done. by rewrite take_ge by lia.
    + rewrite length_app, length_drop. lia.
    + by rewrite drop_app_length'.
Qed.

End Session.

Lemma init_clamps_buffer_count_witness :
  (∀ st', audio_init plain_host closed_session (Some "hw:0"%string) 5000
          = Ret st' →
      num_bufs st' = clamp_bufs 5000
      ∧ ∃ bufs, buffers st' = Some bufs
                ∧ Z.of_nat (length bufs) = clamp_bufs 5000)
  ∧ ((∀ k, malloc_fails plain_host k = false) →
     to_uint32 (sdl_open plain_host) ≠ 0 →
      ∃ st', audio_init plain_host closed_session (Some "hw:0"%string) 5000
             = Ret st')
  ∧ 3 ≤ clamp_bufs 5000 ≤ 1024
  ∧ (3 ≤ 5000 ≤ 1024 → clamp_bufs 5000 = 5000)
  ∧ (5000 = 1 → clamp_bufs 5000 = 3)
  ∧ (5000 = 5000 → clamp_bufs 5000 = 1024)
  ∧ (5000 = 3 → clamp_bufs 5000 = 3).
Proof.
  apply (init_clamps_buffer_count plain_host closed_session
           (Some "hw:0"%string) 5000).
  reflexivity.
Defined.

(** ** The ring of buffers *)

Section Ring.
Context `{SC : SoundChips}.

Implicit Types (st : state) (q : list frame).

Ltac ring_index_cases :=
  unfold ring_index in *; cbn in *;
  repeat match goal with
    | |- context [?a <? ?b] => destruct (Z.ltb_spec a b)
    | H : context [?a <? ?b] |- _ => destruct (Z.ltb_spec a b)
    end;
  try lia.

Lemma ring_index_range st k :
  0 ≤ rdidx st < num_bufs st → 0 ≤ k ≤ num_bufs st →
  0 ≤ ring_index st k ∧ (k < num_bufs st → ring_index st k < num_bufs st).
Proof. intros Hrd Hk. ring_index_cases. Qed.

Lemma ring_index_inj st j k :
  0 ≤ rdidx st < num_bufs st →
  0 ≤ j < num_bufs st → 0 ≤ k < num_bufs st →
  ring_index st j = ring_index st k → j = k.
Proof. intros Hrd Hj Hk. ring_index_cases. Qed.

Lemma ring_push_full st psg pcm ym :
  num_bufs st ≤ buf_cnt st → ring_push psg pcm ym st = Ret (false, st).
Proof.
  intros Hfull. unfold ring_push.
  destruct (Z.ltb_spec (buf_cnt st) (num_bufs st)); [lia | done].
Qed.

Lemma ring_push_session st psg pcm ym bufs :
  session_ok st → buffers st = Some bufs → buf_cnt st < num_bufs st →
  ∃ st', ring_push psg pcm ym st = Ret (true, st')
    ∧ session_ok st'
    ∧ buffers st' = Some (<[Z.to_nat (wridx st) := mix_frame psg pcm ym]> bufs)
    ∧ rdidx st' = rdidx st
    ∧ buf_cnt st' = buf_cnt st + 1
    ∧ same_session st st'.
Proof.
  intros [Hdev Hcap (bufs' & Hbufs' & Hlen & Hsized) Hrd Hcnt Hwr] Hbufs Hfree.
  assert (bufs' = bufs) as -> by congruence.
  assert (Hw : 0 ≤ wridx st < num_bufs st).
  { rewrite Hwr. pose proof (ring_index_range st (buf_cnt st)). lia. }
  unfold ring_push.
  destruct (Z.ltb_spec (buf_cnt st) (num_bufs st)); [| lia].
  rewrite Hbufs. cbn [of_option bind].
  destruct (slot_at_Some bufs (wridx st)) as [buf Hbuf]; [lia |].
  rewrite Hbuf. cbn [of_option bind].
  rewrite slot_at_nat in Hbuf by lia.
  rewrite mix_into_frame
    by (rewrite Forall_lookup in Hsized; exact (Hsized _ _ Hbuf)).
  assert (Hsized' :
    Forall frame_sized (<[Z.to_nat (wridx st) := mix_frame psg pcm ym]> bufs)).
  { apply Forall_insert; [done | apply mix_frame_sized]. }
  cbn.
  rewrite (add_id (wridx st) 1) by (apply is_int_bounds; lia).
  destruct (Z.eqb_spec (wridx st + 1) (num_bufs st)) as [Hwrap | Hnext];
    cbn; rewrite (add_id (buf_cnt st) 1) by (apply is_int_bounds; lia);
    eexists; (split; [reflexivity |]);
    (split; [| by cbn]);
    (constructor; cbn; try done; try lia;
     [ eexists; split; [done |]; split; [by rewrite length_insert | done]
     | ring_index_cases ]).
Qed.

Lemma ring_push_ok st q psg pcm ym :
  ring_holds st q → buf_cnt st < num_bufs st →
  ∃ st', ring_push psg pcm ym st = Ret (true, st')
    ∧ ring_holds st' (q ++ [mix_frame psg pcm ym])
    ∧ same_session st st'.
Proof.
  intros (Hok & Hq & Hslots) Hfree.
  destruct (ok_buffers st Hok) as (bufs & Hbufs & Hlen & Hsized).
  destruct (ring_push_session st psg pcm ym bufs Hok Hbufs Hfree)
    as (st' & Hpush & Hok' & Hbufs' & Hrd' & Hcnt' & Hsame).
  exists st'. split; [done |]. split; [| done].
  pose proof (ok_rd st Hok) as Hrd. pose proof (ok_cnt st Hok) as Hcnt.
  pose proof (ok_wr st Hok) as Hwr.
  destruct Hsame as (_ & Hnum' & _).
  assert (Hidx : ∀ k, ring_index st' k = ring_index st k).
  { intros k. unfold ring_index. by rewrite Hrd', Hnum'. }
  split; [done |]. split.
  - rewrite length_app, Hcnt'. cbn. lia.
  - intros k f Hk. exists (<[Z.to_nat (wridx st) := mix_frame psg pcm ym]> bufs).
    split; [done |]. rewrite Hidx.
    assert (Hkq : Z.of_nat k ≤ buf_cnt st).
    { apply lookup_lt_Some in Hk. rewrite length_app in Hk. cbn in Hk. lia. }
    destruct (ring_index_range st (Z.of_nat k) Hrd) as [Hk0 _]; [lia |].
    destruct (ring_index_range st (buf_cnt st) Hrd) as [Hw0 Hw1]; [lia |].
    rewrite <- Hwr in Hw0, Hw1.
    apply lookup_app_Some in Hk as [Hk | [Hge Hk]].
    + assert (Hlt : Z.of_nat k < buf_cnt st).
      { apply lookup_lt_Some in Hk. lia. }
      destruct (Hslots k f Hk) as (bufs0 & Hbufs0 & Hslot).
      assert (bufs0 = bufs) as -> by congruence.
      rewrite slot_at_nat in Hslot |- * by lia.
      rewrite list_lookup_insert_ne; [done |].
      intros Heq. apply Z2Nat.inj in Heq; [| lia | lia].
      rewrite Hwr in Heq.
      apply ring_index_inj in Heq; lia.
    + apply list_lookup_singleton_Some in Hk as [Hsub <-].
      assert (Z.of_nat k = buf_cnt st) as -> by lia.
      rewrite <- Hwr, slot_at_nat by lia.
      apply list_lookup_insert_eq. lia.
Qed.

Lemma ring_holds_empty st : session_ok st → buf_cnt st = 0 → ring_holds st [].
Proof. intros Hok Hcnt. split; [done |]. split; [by rewrite Hcnt | done]. Qed.

Lemma callback_empty st (stream : list Z) :
  session_ok st → buf_cnt st = 0 → length stream = Z.to_nat 1024 →
  audio_callback st stream (2 * SAMPLES_PER_BUFFER * sizeof_int16)
    = Ret (st, replicate (Z.to_nat 1024) 0).
Proof.
  intros Hok Hcnt Hstream. pose proof (ok_dev st Hok).
  unfold audio_callback.
  destruct (Z.eqb_spec (audio_dev st) 0); [lia |].
  rewrite expected_bytes.
  change (2 * SAMPLES_PER_BUFFER * sizeof_int16) with 1024.
  rewrite Z.eqb_refl, Hcnt. cbn [negb Z.eqb].
  unfold memset. by rewrite drop_ge, app_nil_r by lia.
Qed.

Lemma callback_pop st f q (stream : list Z) :
  ring_holds st (f :: q) → length stream = Z.to_nat 1024 →
  ∃ st', audio_callback st stream (2 * SAMPLES_PER_BUFFER * sizeof_int16)
         = Ret (st', frame_bytes f)
    ∧ ring_holds st' q
    ∧ same_session st st'.
Proof.
  intros (Hok & Hq & Hslots) Hstream.
  destruct Hok as [Hdev Hcap (bufs & Hbufs & Hlen & Hsized) Hrd Hcnt Hwr].
  cbn [length] in Hq.
  destruct (Hslots 0%nat f eq_refl) as (bufs0 & Hbufs0 & Hhead).
  assert (bufs0 = bufs) as -> by congruence.
  assert (Hrd0 : ring_index st (Z.of_nat 0) = rdidx st).
  { unfold ring_index. cbn. rewrite Z.add_0_r.
    destruct (Z.ltb_spec (rdidx st) (num_bufs st)); [done | lia]. }
  rewrite Hrd0 in Hhead.
  assert (Hfb : length (frame_bytes f) = Z.to_nat 1024).
  { rewrite length_frame_bytes. rewrite slot_at_nat in Hhead by lia.
    rewrite Forall_lookup in Hsized. by rewrite (Hsized _ _ Hhead). }
  unfold audio_callback.
  destruct (Z.eqb_spec (audio_dev st) 0); [lia |].
  rewrite expected_bytes.
  change (2 * SAMPLES_PER_BUFFER * sizeof_int16) with 1024.
  rewrite Z.eqb_refl. cbn [negb].
  destruct (Z.eqb_spec (buf_cnt st) 0); [lia |].
  rewrite Hbufs. cbn [of_option bind]. rewrite Hhead. cbn [of_option bind].
  unfold memcpy. rewrite take_ge, drop_ge, app_nil_r by lia.
  cbn.
  rewrite (add_id (rdidx st) 1) by (apply is_int_bounds; lia).
  assert (Hnext : ∀ k : nat,
            Z.of_nat k < buf_cnt st - 1 →
            ring_index st (Z.of_nat (S k))
            = if rdidx st + 1 =? num_bufs st
              then (if Z.of_nat k <? num_bufs st then Z.of_nat k
                    else Z.of_nat k - num_bufs st)
              else (if rdidx st + 1 + Z.of_nat k <? num_bufs st
                    then rdidx st + 1 + Z.of_nat k
                    else rdidx st + 1 + Z.of_nat k - num_bufs st)).
  { intros k Hk. unfold ring_index.
    destruct (Z.eqb_spec (rdidx st + 1) (num_bufs st));
      repeat match goal with
        | |- context [?a <? ?b] => destruct (Z.ltb_spec a b)
        end; lia. }
  destruct (Z.eqb_spec (rdidx st + 1) (num_bufs st)) as [Hwrap | Hnowrap];
    cbn; rewrite (sub_id (buf_cnt st) 1) by (apply is_int_bounds; lia);
    eexists; (split; [reflexivity |]); (split; [| by cbn]);
    (split; [| split]).
  - constructor; cbn; try done; try lia; [by eauto |].
    rewrite Hwr. unfold ring_index; cbn.
    repeat match goal with
      | |- context [?a <? ?b] => destruct (Z.ltb_spec a b)
      end; lia.
  - cbn. lia.
  - intros k g Hk. exists bufs. split; [done |].
    destruct (Hslots (S k) g Hk) as (bufs1 & Hbufs1 & Hslot).
    assert (bufs1 = bufs) as -> by congruence.
    rewrite Hnext in Hslot by (apply lookup_lt_Some in Hk; lia).
    unfold ring_index; cbn. rewrite <- Hslot.
    by destruct (Z.eqb_spec (rdidx st + 1) (num_bufs st)); [| lia].
  - constructor; cbn; try done; try lia; [by eauto |].
    rewrite Hwr. unfold ring_index; cbn.
    repeat match goal with
      | |- context [?a <? ?b] => destruct (Z.ltb_spec a b)
      end; lia.
  - cbn. lia.
  - intros k g Hk. exists bufs. split; [done |].
    destruct (Hslots (S k) g Hk) as (bufs1 & Hbufs1 & Hslot).
    assert (bufs1 = bufs) as -> by congruence.
    rewrite Hnext in Hslot by (apply lookup_lt_Some in Hk; lia).
    unfold ring_index; cbn. rewrite <- Hslot.
    by destruct (Z.eqb_spec (rdidx st + 1) (num_bufs st)); [lia |].
Qed.

Lemma same_session_refl st : same_session st st.
Proof. by repeat split. Qed.

Lemma same_session_trans st1 st2 st3 :
  same_session st1 st2 → same_session st2 st3 → same_session st1 st3.
Proof.
  unfold same_session. intros (?&?&?&?&?&?&?) (?&?&?&?&?&?&?).
  repeat split; congruence.
Qed.

Lemma push_all_ok st q (fs : list (frame * frame * frame)) :
  ring_holds st q →
  Z.of_nat (length q + length fs) ≤ num_bufs st →
  ∃ st', push_all fs st = Ret (replicate (length fs) true, st')
    ∧ ring_holds st' (q ++ (mixed <$> fs))
    ∧ same_session st st'.
Proof.
  revert st q. induction fs as [| [[psg pcm] ym] fs IH]; intros st q Hq Hroom.
  - exists st. cbn. rewrite app_nil_r. split; [done |].
    split; [done | apply same_session_refl].
  - cbn [length] in Hroom.
    destruct Hq as (Hok & Hlen & Hslots).
    destruct (ring_push_ok st q psg pcm ym) as (st1 & Hpush & Hq1 & Hsame1);
      [done | lia |].
    destruct (IH st1 (q ++ [mix_frame psg pcm ym]) Hq1) as (st2 & Hrest & Hq2 & Hsame2).
    { destruct Hsame1 as (_ & -> & _). rewrite length_app. cbn. lia. }
    exists st2. cbn [push_all]. rewrite Hpush. cbn [bind snd fst].
    rewrite Hrest. cbn [bind snd fst].
    split; [done |]. split.
    + by rewrite <- app_assoc in Hq2.
    + by apply same_session_trans with st1.
Qed.

Lemma pop_all_ok st q (streams : list (list Z)) :
  ring_holds st q →
  length streams = length q →
  Forall (λ s : list Z, length s = Z.to_nat 1024) streams →
  ∃ st', pop_all streams st = Ret (frame_bytes <$> q, st')
    ∧ ring_holds st' []
    ∧ same_session st st'.
Proof.
  revert st streams. induction q as [| f q IH]; intros st streams Hq Hlen Hall.
  - destruct streams; [| done]. exists st. cbn.
    split; [done |]. split; [done | apply same_session_refl].
  - destruct streams as [| stream streams]; [done |].
    apply Forall_cons in Hall as [Hstream Hall].
    destruct (callback_pop st f q stream Hq Hstream) as (st1 & Hpop & Hq1 & Hsame1).
    destruct (IH st1 streams Hq1) as (st2 & Hrest & Hq2 & Hsame2);
      [by injection Hlen | done |].
    exists st2. cbn [pop_all]. rewrite Hpop. cbn [bind snd fst].
    rewrite Hrest. cbn [bind snd fst].
    split; [done |]. split; [done |].
    by apply same_session_trans with st1.
Qed.

(** C5 (as the code has it). From an empty ring of [N] slots, [N] pushes
    succeed and the next one finds the ring full: the ring stores [N]
    buffers, so after [N - 1] pushes one more still succeeds. The callback
    on an empty ring reports it by writing silence and leaves the ring as
    it is. *)
Theorem ring_full_after_capacity_pushes st
    (fs : list (frame * frame * frame)) (extra : frame * frame * frame)
    (stream : list Z) :
  session_ok st → buf_cnt st = 0 →
  Z.of_nat (length fs) = num_bufs st →
  length stream = Z.to_nat 1024 →
  (∃ st1, push_all fs st = Ret (replicate (length fs) true, st1)
     ∧ buf_cnt st1 = num_bufs st
     ∧ ring_push extra.1.1 extra.1.2 extra.2 st1 = Ret (false, st1))
  ∧ (∀ fs', fs' `prefix_of` fs → fs' ≠ fs →
       ∃ st1 st2, push_all fs' st = Ret (replicate (length fs') true, st1)
         ∧ ring_push extra.1.1 extra.1.2 extra.2 st1 = Ret (true, st2))
  ∧ audio_callback st stream (2 * SAMPLES_PER_BUFFER * sizeof_int16)
    = Ret (st, replicate (Z.to_nat 1024) 0).
Proof.
  intros Hok Hempty Hfs Hstream.
  pose proof (ring_holds_empty st Hok Hempty) as Hq.
  split; [| split].
  - destruct (push_all_ok st [] fs Hq) as (st1 & Hpush & Hq1 & Hsame);
      [cbn; lia |].
    exists st1. split; [done |].
    destruct Hq1 as (Hok1 & Hlen1 & _). destruct Hsame as (_ & Hnum & _).
    cbn in Hlen1. rewrite length_fmap in Hlen1.
    split; [lia |]. apply ring_push_full. lia.
  - intros fs' [rest ->] Hne.
    assert (Hshort : (length fs' < length (fs' ++ rest))%nat).
    { rewrite length_app. destruct rest; [| cbn; lia].
      by rewrite app_nil_r in Hne. }
    destruct (push_all_ok st [] fs' Hq) as (st1 & Hpush & Hq1 & Hsame);
      [cbn; lia |].
    destruct (ring_push_ok st1 _ extra.1.1 extra.1.2 extra.2 Hq1)
      as (st2 & Hpush2 & _).
    { destruct Hq1 as (_ & Hlen1 & _). destruct Hsame as (_ & -> & _).
      cbn in Hlen1. rewrite length_fmap in Hlen1. lia. }
    eauto.
  - by apply callback_empty.
Qed.

(** C7. From an empty ring of [N] slots: [N] pushes succeed; one more is
    refused and leaves the whole state as it was; [N] callbacks then
    deliver the [N] mixed frames, oldest first; the next callback finds the
    ring empty and writes silence. *)
Theorem ring_overflow_drops_newest st
    (fs : list (frame * frame * frame)) (extra : frame * frame * frame)
    (streams : list (list Z)) (stream : list Z) :
  session_ok st → buf_cnt st = 0 →
  Z.of_nat (length fs) = num_bufs st →
  length streams = length fs →
  Forall (λ s : list Z, length s = Z.to_nat 1024) streams →
  length stream = Z.to_nat 1024 →
  ∃ st1 st2,
    push_all fs st = Ret (replicate (length fs) true, st1)
    ∧ ring_push extra.1.1 extra.1.2 extra.2 st1 = Ret (false, st1)
    ∧ pop_all streams st1 = Ret ((λ t, frame_bytes (mixed t)) <$> fs, st2)
    ∧ buf_cnt st2 = 0
    ∧ audio_callback st2 stream (2 * SAMPLES_PER_BUFFER * sizeof_int16)
      = Ret (st2, replicate (Z.to_nat 1024) 0).
Proof.
  intros Hok Hempty Hfs Hlen Hall Hstream.
  pose proof (ring_holds_empty st Hok Hempty) as Hq.
  destruct (push_all_ok st [] fs Hq) as (st1 & Hpush & Hq1 & Hsame1);
    [cbn; lia |].
  cbn [app] in Hq1.
  destruct (pop_all_ok st1 (mixed <$> fs) streams Hq1) as (st2 & Hpop & Hq2 & _);
    [by rewrite length_fmap | done |].
  exists st1, st2. split; [done |].
  destruct Hq1 as (Hok1 & Hlen1 & _). destruct Hsame1 as (_ & Hnum & _).
  rewrite length_fmap in Hlen1.
  split; [apply ring_push_full; lia |].
  split; [by rewrite <- list_fmap_compose in Hpop |].
  destruct Hq2 as (Hok2 & Hlen2 & _). cbn in Hlen2.
  split; [lia |]. apply callback_empty; [done | lia | done].
Qed.

End Ring.

(** ** The clock accumulator and the render loop *)

Section Clock.
Context `{SC : SoundChips}.

Implicit Types (st : state).

(** Linear arithmetic with [/] and [mod] by constants. *)
Ltac div_lia := Z.to_euclidean_division_equations; lia.

Lemma session_ok_ext st st' :
  session_ok st →
  audio_dev st' = audio_dev st → num_bufs st' = num_bufs st →
  buffers st' = buffers st → rdidx st' = rdidx st →
  wridx st' = wridx st → buf_cnt st' = buf_cnt st →
  session_ok st'.
Proof.
  intros [Hdev Hcap Hbufs Hrd Hcnt Hwr] E1 E2 E3 E4 E5 E6.
  constructor; unfold ring_index; rewrite ?E1, ?E2, ?E3, ?E4, ?E5, ?E6; done.
Qed.

Lemma render_buffer_ok st :
  session_ok st →
  vera_per_buffer ≤ vera_clks st ≤ INT_MAX →
  ∃ st', render_buffer st = Ret st'
    ∧ session_ok st'
    ∧ vera_clks st' = vera_clks st - vera_per_buffer
    ∧ cpu_clks st' = cpu_clks st
    ∧ renders st' = renders st + 1
    ∧ audio_dev st' = audio_dev st.
Proof.
  intros Hok Hvera. unfold render_buffer.
  rewrite sub_id.
  2:{ apply is_int_bounds. unfold vera_per_buffer, SAMPLES_PER_BUFFER, INT_MAX in *.
      lia. }
  cbn [chips set_vera_clks].
  destruct (psg_render (chips st) SAMPLES_PER_BUFFER) as [psg c1].
  destruct (pcm_render c1 SAMPLES_PER_BUFFER) as [pcm c2].
  destruct (YM_stream_update c2 SAMPLES_PER_BUFFER) as [ym c3].
  set (st0 := count_render _).
  assert (Hok0 : session_ok st0) by (by apply (session_ok_ext st)).
  destruct (Z_lt_ge_dec (buf_cnt st0) (num_bufs st0)) as [Hfree | Hfull].
  - destruct (ok_buffers st0 Hok0) as (bufs & Hbufs & _).
    destruct (ring_push_session st0 psg pcm ym bufs Hok0 Hbufs Hfree)
      as (st' & -> & Hok' & _ & _ & _ & Hsame).
    destruct Hsame as (Hd & _ & Hv & Hc & Hr & _).
    exists st'. cbn [bind snd]. split; [done |]. split; [done |].
    by rewrite Hv, Hc, Hr, Hd.
  - rewrite ring_push_full by lia. exists st0. by cbn.
Qed.

Lemma render_loop_ok fuel st :
  session_ok st →
  0 ≤ vera_clks st ≤ INT_MAX →
  (Z.to_nat (vera_clks st / vera_per_buffer) ≤ fuel)%nat →
  ∃ st', render_loop fuel st = Ret st'
    ∧ session_ok st'
    ∧ vera_clks st' = vera_clks st mod vera_per_buffer
    ∧ renders st' = renders st + vera_clks st / vera_per_buffer
    ∧ cpu_clks st' = cpu_clks st
    ∧ audio_dev st' = audio_dev st.
Proof.
  revert st. induction fuel as [| fuel IH]; intros st Hok Hvera Hfuel.
  - cbn. destruct (Z.leb_spec vera_per_buffer (vera_clks st)) as [Hge | Hlt].
    + exfalso. change vera_per_buffer with 131072 in *. div_lia.
    + exists st. change vera_per_buffer with 131072 in *.
      split; [done |]. split; [done |]. repeat split; div_lia.
  - cbn [render_loop].
    destruct (Z.leb_spec vera_per_buffer (vera_clks st)) as [Hge | Hlt].
    + destruct (render_buffer_ok st Hok) as (st1 & -> & Hok1 & Hv1 & Hc1 & Hr1 & Hd1);
        [div_lia |].
      cbn [bind].
      change vera_per_buffer with 131072 in *. unfold INT_MAX in *.
      destruct (IH st1 Hok1) as (st' & -> & Hok' & Hv' & Hr' & Hc' & Hd');
        [div_lia | div_lia |].
      exists st'. split; [done |]. split; [done |].
      rewrite Hv', Hr', Hc', Hd', Hv1, Hr1, Hc1, Hd1.
      repeat split; div_lia.
    + exists st. change vera_per_buffer with 131072 in *.
      split; [done |]. split; [done |]. repeat split; div_lia.
Qed.

(** The loop bound is never exhausted, in any state: every iteration
    takes [vera_per_buffer] off [vera_clks]. *)
Lemma render_buffer_cases st :
  render_buffer st = Undef
  ∨ ∃ st', render_buffer st = Ret st'
           ∧ vera_clks st' = sub (vera_clks st) vera_per_buffer.
Proof.
  unfold render_buffer.
  destruct (psg_render _ _) as [psg c1].
  destruct (pcm_render _ _) as [pcm c2].
  destruct (YM_stream_update _ _) as [ym c3].
  unfold ring_push. cbn.
  destruct (buf_cnt st <? num_bufs st); [| right; eauto].
  destruct (buffers st) as [bufs |]; [| by left]. cbn.
  destruct (slot_at bufs (wridx st)) as [buf |]; [| by left]. cbn.
  right. destruct (add (wridx st) 1 =? num_bufs st); eauto.
Qed.

Lemma render_loop_fuel fuel st :
  (Z.to_nat (vera_clks st / vera_per_buffer) ≤ fuel)%nat →
  render_loop fuel st ≠ OutOfFuel.
Proof.
  revert st. induction fuel as [| fuel IH]; intros st Hfuel; cbn [render_loop];
    destruct (Z.leb_spec vera_per_buffer (vera_clks st)) as [Hge | Hlt];
    try done.
  - change vera_per_buffer with 131072 in *. div_lia.
  - destruct (render_buffer_cases st) as [-> | (st' & -> & Hv)]; [done |].
    cbn [bind]. apply IH. rewrite Hv.
    unfold sub, to_int, wrap.
    change vera_per_buffer with 131072 in *.
    change (2 ^ (32 - 1)) with 2147483648. change (2 ^ 32) with 4294967296.
    div_lia.
Qed.

Lemma audio_render_total st (n : Z) : audio_render st n ≠ OutOfFuel.
Proof.
  unfold audio_render. destruct (audio_dev st =? 0); [done |].
  by apply render_loop_fuel.
Qed.

(** On an open session with in-range clocks and a tick argument that keeps
    every [int] in range, [audio_render] returns, keeps the invariant and
    accounts for every tick. *)
Lemma audio_render_ok st (n : Z) :
  session_ok st → clocks_ok st → 0 ≤ n ≤ max_cpu_clocks →
  ∃ st' c, audio_render st n = Ret st'
    ∧ session_ok st' ∧ clocks_ok st'
    ∧ 0 ≤ c
    ∧ cpu_clks st + n = 8 * c + cpu_clks st'
    ∧ vera_clks st + 25 * c
      = vera_per_buffer * (renders st' - renders st) + vera_clks st'.
Proof.
  intros Hok [Hcpu Hvera] Hn. pose proof (ok_dev st Hok) as Hdev.
  unfold max_cpu_clocks in Hn. change vera_per_buffer with 131072 in *.
  unfold audio_render.
  destruct (Z.eqb_spec (audio_dev st) 0); [div_lia |].
  rewrite (add_id (cpu_clks st) n) by (apply is_int_bounds; div_lia).
  cbn [cpu_clks set_cpu_clks].
  destruct (Z.ltb_spec 8 (cpu_clks st + n)) as [Hconv | Hkeep].
  - cbn.
    set (c := (cpu_clks st + n) / 8).
    assert (Hc : Z.quot (cpu_clks st + n) 8 = c)
      by (apply Z.quot_div_nonneg; div_lia).
    rewrite (div_id (cpu_clks st + n) 8) by (apply is_int_bounds; div_lia).
    rewrite Hc.
    rewrite (mul_id c 8), (mul_id c 25) by (apply is_int_bounds; div_lia).
    rewrite (sub_id (cpu_clks st + n)) by (apply is_int_bounds; div_lia).
    rewrite (add_id (vera_clks st)) by (apply is_int_bounds; div_lia).
    match goal with |- context [render_loop _ ?s] => set (st2 := s) end.
    destruct (render_loop_ok (loop_bound st2) st2)
      as (st' & Hloop & Hok' & Hv' & Hr' & Hc' & Hd').
    + by apply (session_ok_ext st).
    + subst st2. cbn. unfold INT_MAX. div_lia.
    + done.
    + exists st', c. split; [done |]. split; [done |].
      subst st2. cbn in Hv', Hr', Hc'. change vera_per_buffer with 131072 in *.
      unfold clocks_ok. change vera_per_buffer with 131072.
      rewrite Hv', Hr', Hc'. repeat split; div_lia.
  - match goal with |- context [render_loop _ ?s] => set (st2 := s) end.
    destruct (render_loop_ok (loop_bound st2) st2)
      as (st' & Hloop & Hok' & Hv' & Hr' & Hc' & Hd').
    + by apply (session_ok_ext st).
    + subst st2. cbn. unfold INT_MAX. div_lia.
    + done.
    + exists st', 0. split; [done |]. split; [done |].
      subst st2. cbn in Hv', Hr', Hc'. change vera_per_buffer with 131072 in *.
      unfold clocks_ok. change vera_per_buffer with 131072.
      rewrite Hv', Hr', Hc'. repeat split; div_lia.
Qed.

Lemma render_all_ok st (ticks : list Z) :
  session_ok st → clocks_ok st →
  Forall (λ n, 0 ≤ n ≤ max_cpu_clocks) ticks →
  ∃ st' c, render_all st ticks = Ret st'
    ∧ session_ok st' ∧ clocks_ok st'
    ∧ 0 ≤ c
    ∧ cpu_clks st + total_ticks ticks = 8 * c + cpu_clks st'
    ∧ vera_clks st + 25 * c
      = vera_per_buffer * (renders st' - renders st) + vera_clks st'.
Proof.
  revert st. induction ticks as [| n ticks IH]; intros st Hok Hclk Hall.
  - exists st, 0. cbn [render_all total_ticks foldr].
    split; [done |]. split; [done |]. split; [done |]. repeat split; lia.
  - apply Forall_cons in Hall as [Hn Hall].
    destruct (audio_render_ok st n Hok Hclk Hn)
      as (st1 & c1 & Hr1 & Hok1 & Hclk1 & Hc1 & Hcpu1 & Hvera1).
    destruct (IH st1 Hok1 Hclk1 Hall)
      as (st' & c2 & Hr2 & Hok' & Hclk' & Hc2 & Hcpu2 & Hvera2).
    exists st', (c1 + c2). cbn [render_all total_ticks foldr].
    rewrite Hr1. cbn [bind]. split; [done |]. split; [done |].
    split; [done |]. fold (total_ticks ticks).
    repeat split; lia.
Qed.

(** C1 (as the code has it). Over any sequence of [audio_render] calls
    from a fresh open session, no tick is lost: 25 times the processor
    ticks fed in equal 8 times the device ticks rendered or still pending
    plus 25 times the processor ticks still carried. Ticks are converted
    in whole groups of 8, so when fewer than 8 are carried at the end the
    number of buffers rendered is [floor (25 * floor (T / 8) / threshold)],
    however the total [T] was split over the calls. *)
Theorem render_trigger_count st (ticks : list Z) :
  session_ok st → cpu_clks st = 0 → vera_clks st = 0 →
  Forall (λ n, 0 ≤ n ≤ max_cpu_clocks) ticks →
  ∃ st', render_all st ticks = Ret st'
    ∧ 25 * total_ticks ticks
      = 8 * (vera_per_buffer * (renders st' - renders st) + vera_clks st')
        + 25 * cpu_clks st'
    ∧ 0 ≤ vera_clks st' < vera_per_buffer
    ∧ (cpu_clks st' < 8 →
       renders st' - renders st = grouped_trigger_count ticks).
Proof.
  intros Hok Hcpu Hvera Hall.
  destruct (render_all_ok st ticks Hok) as
    (st' & c & Hrun & _ & [Hcpu' Hvera'] & Hc & Htot & Hconv); [| done |].
  { unfold clocks_ok. rewrite Hcpu, Hvera. by vm_compute. }
  exists st'. rewrite Hcpu in Htot. rewrite Hvera in Hconv.
  split; [done |]. split; [lia |]. split; [done |].
  intros Hlt. unfold grouped_trigger_count.
  change vera_per_buffer with 131072 in *.
  assert (total_ticks ticks / 8 = c) as -> by div_lia.
  div_lia.
Qed.

End Clock.

Lemma session_okb_sound `{SC : SoundChips} (st : state) :
  session_okb st = true → session_ok st.
Proof.
  unfold session_okb. rewrite !andb_true_iff.
  intros ((((((((Hdev & Hlo) & Hhi) & Hbufs) & Hr0) & Hr1) & Hc0) & Hc1) & Hw).
  destruct (buffers st) as [bufs |] eqn:Eb; [| done].
  apply andb_true_iff in Hbufs as [Hlen Hsized].
  constructor; try lia.
  exists bufs. split; [done |]. split; [lia |].
  apply Forall_forall. intros f Hf.
  rewrite forallb_forall in Hsized.
  apply Nat.eqb_eq, Hsized. by apply list_elem_of_In.
Qed.

(** ** More on [audio_init] and [audio_close] *)

Section Init.
Context `{SC : SoundChips}.

Implicit Types (st : state) (h : host).

Lemma alloc_buffers_lookup h i n bufs j :
  alloc_buffers h i n = Some bufs → (j < n)%nat →
  bufs !! j = Some (fresh_buffer h (i + j)).
Proof.
  revert i bufs j. induction n as [| n IH]; intros i bufs j; [lia |].
  cbn [alloc_buffers]. destruct (malloc_fails h (S i)); [done |].
  destruct (alloc_buffers h (S i) n) as [tl |] eqn:Htl; [| done].
  intros [= <-] Hj. destruct j as [| j].
  - cbn. by rewrite Nat.add_0_r.
  - change ((fresh_buffer h i :: tl) !! S j) with (tl !! j).
    rewrite (IH _ _ j Htl) by lia. do 2 f_equal. lia.
Qed.

Lemma alloc_buffers_fails h i n :
  alloc_buffers h i n = None
  ↔ ∃ j, (j < n)%nat ∧ malloc_fails h (S (i + j)) = true.
Proof.
  revert i. induction n as [| n IH]; intros i; cbn [alloc_buffers].
  - split; [done | intros (j & Hj & _); lia].
  - destruct (malloc_fails h (S i)) eqn:Hm.
    + split; [| done]. intros _. exists 0%nat. rewrite Nat.add_0_r.
      split; [lia | done].
    + destruct (alloc_buffers h (S i) n) as [tl |] eqn:Htl; cbn.
      * split; [done |]. intros (j & Hj & Hf). destruct j as [| j].
        { rewrite Nat.add_0_r in Hf. congruence. }
        assert (Hnone : alloc_buffers h (S i) n = None); [| congruence].
        apply IH. exists j. split; [lia |].
        by replace (S i + j)%nat with (i + S j)%nat by lia.
      * split; [| done]. intros _.
        destruct (proj1 (IH (S i)) Htl) as (j & Hj & Hf).
        exists (S j). split; [lia |].
        by replace (i + S j)%nat with (S i + j)%nat by lia.
Qed.

Lemma init_base_fields st (n : Z) :
  num_bufs (init_base st n) = clamp_bufs n
  ∧ stderr (init_base st n) = stderr st
  ∧ chips (init_base st n) = chips st
  ∧ rdidx (init_base st n) = rdidx st
  ∧ wridx (init_base st n) = wridx st
  ∧ buf_cnt (init_base st n) = buf_cnt st
  ∧ vera_clks (init_base st n) = vera_clks st
  ∧ cpu_clks (init_base st n) = cpu_clks st
  ∧ renders (init_base st n) = renders st.
Proof.
  unfold init_base, audio_close.
  destruct (0 <? audio_dev st); [destruct (audio_dev st =? 0) |]; done.
Qed.

(** [audio_init] past the test for "none", in closed form. *)
Lemma audio_init_unfold h st (dev_name : option string) (n : Z) :
  is_none_device dev_name = false →
  audio_init h st dev_name n =
    if malloc_fails h 0 then Exit 1 (stderr st ++ [Cannot_allocate])
    else
      match alloc_buffers h 0 (Z.to_nat (clamp_bufs n)) with
      | None => Exit 1 (stderr st ++ [Cannot_allocate])
      | Some bufs =>
          if to_uint32 (sdl_open h) <=? 0 then
            Exit (match dev_name with Some _ => 1 | None => -1 end)
                 (stderr st ++ [Open_failed])
          else
            Ret (set_chips
                   (YM_init (sdl_freq h) 60 (YM_Create 3579545 (chips st)))
                   (set_audio_dev (to_uint32 (sdl_open h))
                      (set_buffers (Some bufs) (init_base st n))))
      end.
Proof.
  intros Hdev. unfold audio_init. rewrite Hdev. cbv zeta.
  set (st0 := if 0 <? audio_dev st then audio_close st else st).
  set (st3 := if 1024 <? _ then _ else _).
  assert (Hst3 : st3 = init_base st n).
  { subst st3. unfold init_base. fold st0. cbn [num_bufs set_num_bufs].
    destruct (Z.ltb_spec n 3); cbn [num_bufs set_num_bufs].
    - destruct (Z.ltb_spec 1024 3); [lia |].
      unfold set_num_bufs; cbn. f_equal. lia.
    - destruct (Z.ltb_spec 1024 n); unfold set_num_bufs; cbn; f_equal; lia. }
  rewrite Hst3. clear st3 Hst3.
  destruct (init_base_fields st n) as (Hnum & Herr & Hchips & _).
  rewrite Herr, Hnum.
  destruct (malloc_fails h 0); [done |].
  destruct (alloc_buffers h 0 (Z.to_nat (clamp_bufs n))); [| done].
  cbn [audio_dev stderr chips set_audio_dev set_buffers].
  rewrite Herr, Hchips.
  destruct (to_uint32 (sdl_open h) <=? 0); [by destruct dev_name | done].
Qed.

(** X1. How [audio_init] ends for a selector other than "none". A failing
    [malloc] among the pointer array and the clamped number of slots ends
    the process with status 1 after "Cannot allocate"; with memory granted
    and no device the process ends after "open failed", with status 1 when
    a device was named (through [audio_usage]) and -1 otherwise; else the
    call returns with the device identifier stored, the slots holding what
    [malloc] handed out and the FM chip set up. *)
Theorem audio_init_outcome h st (dev_name : option string) (n : Z) :
  is_none_device dev_name = false →
  ((∃ k, (k ≤ Z.to_nat (clamp_bufs n))%nat ∧ malloc_fails h k = true) →
     audio_init h st dev_name n = Exit 1 (stderr st ++ [Cannot_allocate]))
  ∧ ((∀ k, (k ≤ Z.to_nat (clamp_bufs n))%nat → malloc_fails h k = false) →
     (to_uint32 (sdl_open h) = 0 →
        audio_init h st dev_name n
        = Exit (match dev_name with Some _ => 1 | None => -1 end)
               (stderr st ++ [Open_failed]))
     ∧ (to_uint32 (sdl_open h) ≠ 0 →
        ∃ st' bufs, audio_init h st dev_name n = Ret st'
          ∧ audio_dev st' = to_uint32 (sdl_open h)
          ∧ buffers st' = Some bufs
          ∧ length bufs = Z.to_nat (clamp_bufs n)
          ∧ (∀ j, (j < Z.to_nat (clamp_bufs n))%nat →
               bufs !! j = Some (fresh_buffer h j))
          ∧ chips st'
            = YM_init (sdl_freq h) 60 (YM_Create 3579545 (chips st))
          ∧ stderr st' = stderr st)).
Proof.
  intros Hdev. rewrite (audio_init_unfold h st dev_name n Hdev).
  split.
  - intros (k & Hk & Hfail).
    destruct (malloc_fails h 0) eqn:H0; [done |].
    destruct (alloc_buffers h 0 (Z.to_nat (clamp_bufs n))) eqn:Hb; [| done].
    exfalso. destruct k as [| k]; [congruence |].
    assert (Hnone : alloc_buffers h 0 (Z.to_nat (clamp_bufs n)) = None);
      [| congruence].
    apply alloc_buffers_fails. exists k. split; [lia | done].
  - intros Hok. rewrite (Hok 0%nat) by lia.
    destruct (alloc_buffers h 0 (Z.to_nat (clamp_bufs n))) as [bufs |] eqn:Hb.
    2:{ apply alloc_buffers_fails in Hb as (j & Hj & Hf).
        rewrite Hok in Hf by lia. done. }
    split.
    + intros ->. done.
    + intros Hopen.
      destruct (Z.leb_spec (to_uint32 (sdl_open h)) 0) as [Hle | _].
      { unfold to_uint32 in *.
        pose proof (Z.mod_pos_bound (sdl_open h) (2 ^ 32)). lia. }
      eexists _, bufs. split; [done |].
      destruct (alloc_buffers_sized h 0 _ bufs Hb) as [Hlen _].
      destruct (init_base_fields st n) as (_ & Herr & _).
      repeat split; try done.
      intros j Hj. by rewrite (alloc_buffers_lookup h 0 _ bufs j Hb Hj).
Qed.

(** X2. A returning [audio_init] on a closed session whose ring variables
    have their initial values opens a session that satisfies the ring
    invariant, with an empty ring and the clock remainders as they were. *)
Theorem init_establishes_session h st (dev_name : option string) (n : Z) st' :
  audio_dev st = 0 → rdidx st = 0 → wridx st = 0 → buf_cnt st = 0 →
  is_none_device dev_name = false →
  audio_init h st dev_name n = Ret st' →
  session_ok st' ∧ ring_holds st' []
  ∧ num_bufs st' = clamp_bufs n
  ∧ (clocks_ok st → clocks_ok st').
Proof.
  intros Hdev Hrd Hwr Hcnt Hnone Hinit.
  destruct (audio_init_opens_session h st dev_name n st')
    as (Hok & Hv & Hc & _ & Hcnt'); try done.
  split; [done |]. split; [by apply ring_holds_empty |].
  split.
  - rewrite (audio_init_unfold h st dev_name n Hnone) in Hinit.
    destruct (malloc_fails h 0); [done |].
    destruct (alloc_buffers h 0 _); [| done].
    destruct (to_uint32 (sdl_open h) <=? 0); [done |].
    injection Hinit as <-.
    by destruct (init_base_fields st n) as (Hnum & _).
  - unfold clocks_ok. by rewrite Hv, Hc.
Qed.

(** X3. Neither [audio_close] nor [audio_init] (with any selector) writes
    the read index, the write index, the buffer count or the two clock
    remainders: a session that is opened again goes on with the values
    the previous one left. *)
Theorem init_keeps_cursors_and_clocks h st (dev_name : option string)
    (n : Z) st' :
  audio_init h st dev_name n = Ret st' →
  (rdidx st' = rdidx st ∧ wridx st' = wridx st ∧ buf_cnt st' = buf_cnt st
   ∧ vera_clks st' = vera_clks st ∧ cpu_clks st' = cpu_clks st)
  ∧ (rdidx (audio_close st) = rdidx st ∧ wridx (audio_close st) = wridx st
     ∧ buf_cnt (audio_close st) = buf_cnt st
     ∧ vera_clks (audio_close st) = vera_clks st
     ∧ cpu_clks (audio_close st) = cpu_clks st).
Proof.
  intros Hinit.
  assert (Hclose :
    rdidx (audio_close st) = rdidx st ∧ wridx (audio_close st) = wridx st
    ∧ buf_cnt (audio_close st) = buf_cnt st
    ∧ vera_clks (audio_close st) = vera_clks st
    ∧ cpu_clks (audio_close st) = cpu_clks st).
  { unfold audio_close. by destruct (audio_dev st =? 0). }
  split; [| done].
  destruct (is_none_device dev_name) eqn:Hnone.
  - unfold audio_init in Hinit. rewrite Hnone in Hinit.
    injection Hinit as <-. by destruct (0 <? audio_dev st).
  - rewrite (audio_init_unfold h st dev_name n Hnone) in Hinit.
    destruct (malloc_fails h 0); [done |].
    destruct (alloc_buffers h 0 _); [| done].
    destruct (to_uint32 (sdl_open h) <=? 0); [done |].
    injection Hinit as <-.
    by destruct (init_base_fields st n) as (_ & _ & _ & ? & ? & ? & ? & ? & _).
Qed.


(** X5. Opening again with fewer slots than the old write index leaves
    that index outside the new array: while the stale count is below the
    new capacity the next push writes outside the allocated slots. *)
Theorem reopen_smaller_push_out_of_bounds h st (dev_name : option string)
    (n : Z) (psg_buf pcm_buf ym_buf : frame) :
  clamp_bufs n ≤ wridx st → buf_cnt st < clamp_bufs n →
  is_none_device dev_name = false →
  (∀ k, malloc_fails h k = false) → to_uint32 (sdl_open h) ≠ 0 →
  ∃ st1, audio_init h st dev_name n = Ret st1
    ∧ ring_push psg_buf pcm_buf ym_buf st1 = Undef
    ∧ render_buffer st1 = Undef.
Proof.
  intros Hwr Hcnt Hnone Hmalloc Hopen.
  rewrite (audio_init_unfold h st dev_name n Hnone). rewrite Hmalloc.
  destruct (alloc_buffers_succeeds h 0 (Z.to_nat (clamp_bufs n)) Hmalloc)
    as [bufs Hb]. rewrite Hb.
  destruct (alloc_buffers_sized h 0 _ bufs Hb) as [Hlen _].
  destruct (Z.leb_spec (to_uint32 (sdl_open h)) 0) as [Hle | Hpos].
  { unfold to_uint32 in *.
    pose proof (Z.mod_pos_bound (sdl_open h) (2 ^ 32)). lia. }
  destruct (init_base_fields st n) as (Hnum & _ & _ & _ & Hw & Hc & _).
  set (b := init_base st n) in *. clearbody b.
  eexists. split; [done |].
  assert (Hpush : ∀ psg pcm ym st1,
    buf_cnt st1 = buf_cnt st → num_bufs st1 = clamp_bufs n →
    wridx st1 = wridx st → buffers st1 = Some bufs →
    ring_push psg pcm ym st1 = Undef).
  { intros psg pcm ym st1 E1 E2 E3 E4. unfold ring_push.
    rewrite E1, E2, E3, E4.
    destruct (Z.ltb_spec (buf_cnt st) (clamp_bufs n)); [| lia].
    cbn [of_option bind]. rewrite slot_at_nat by (unfold clamp_bufs in *; lia).
    rewrite lookup_ge_None_2; [done |]. unfold clamp_bufs in *. lia. }
  split.
  - by apply Hpush.
  - unfold render_buffer.
    destruct (psg_render _ _) as [psg c1].
    destruct (pcm_render _ _) as [pcm c2].
    destruct (YM_stream_update _ _) as [ym c3].
    by rewrite Hpush.
Qed.

End Init.

(** ** The two threads together *)

Section Interleave.
Context `{SC : SoundChips}.

Implicit Types (st : state) (q : list frame).

Ltac ltb_cases :=
  repeat match goal with
    | |- context [?a <? ?b] => destruct (Z.ltb_spec a b)
    end.

(** A callback on an open session returns and keeps the invariant,
    whatever region and length it is given. *)
Lemma callback_session st (stream : list Z) (len : Z) :
  session_ok st →
  ∃ st' out, audio_callback st stream len = Ret (st', out)
    ∧ session_ok st'
    ∧ num_bufs st' = num_bufs st
    ∧ vera_clks st' = vera_clks st ∧ cpu_clks st' = cpu_clks st
    ∧ renders st' = renders st
    ∧ buf_cnt st' ≤ buf_cnt st.
Proof.
  intros Hok.
  destruct Hok as [Hdev Hcap (bufs & Hbufs & Hlen & Hsized) Hrd Hcnt Hwr].
  unfold audio_callback.
  destruct (Z.eqb_spec (audio_dev st) 0); [lia |].
  rewrite expected_bytes.
  destruct (Z.eqb_spec len 1024) as [-> | Hne]; cbn [negb].
  2:{ eexists _, _. split; [done |]. cbn.
      split; [constructor; cbn; eauto |]. repeat split; (done || lia). }
  destruct (Z.eqb_spec (buf_cnt st) 0) as [Hempty | Hsome].
  { eexists _, _. split; [done |].
    split; [constructor; eauto |]. repeat split; (done || lia). }
  rewrite Hbufs. cbn [of_option bind].
  destruct (slot_at_Some bufs (rdidx st)) as [buf Hbuf]; [lia |].
  rewrite Hbuf. cbn [of_option bind]. cbn.
  rewrite (add_id (rdidx st) 1) by (apply is_int_bounds; lia).
  destruct (Z.eqb_spec (rdidx st + 1) (num_bufs st)) as [Hwrap | Hnowrap];
    cbn; rewrite (sub_id (buf_cnt st) 1) by (apply is_int_bounds; lia);
    eexists _, _; (split; [reflexivity |]); cbn;
    (split; [| repeat split; (done || lia)]);
    (constructor; cbn; try done; try lia; [by eauto |]);
    rewrite Hwr; unfold ring_index; cbn; ltb_cases; lia.
Qed.

(** One iteration of the render loop on an open session returns and
    keeps the invariant, whatever [vera_clks] holds. *)
Lemma render_buffer_session st :
  session_ok st →
  ∃ st', render_buffer st = Ret st'
    ∧ session_ok st'
    ∧ num_bufs st' = num_bufs st
    ∧ vera_clks st' = sub (vera_clks st) vera_per_buffer
    ∧ buf_cnt st ≤ buf_cnt st'.
Proof.
  intros Hok. unfold render_buffer.
  destruct (psg_render _ _) as [psg c1].
  destruct (pcm_render c1 _) as [pcm c2].
  destruct (YM_stream_update c2 _) as [ym c3].
  set (st0 := count_render _).
  assert (Hok0 : session_ok st0) by (by apply (session_ok_ext st)).
  destruct (Z_lt_ge_dec (buf_cnt st0) (num_bufs st0)) as [Hfree | Hfull].
  - destruct (ok_buffers st0 Hok0) as (bufs & Hbufs & _).
    destruct (ring_push_session st0 psg pcm ym bufs Hok0 Hbufs Hfree)
      as (st' & -> & Hok' & _ & _ & Hcnt' & Hsame).
    destruct Hsame as (_ & Hn & Hv & _).
    exists st'. cbn [bind snd]. split; [done |]. split; [done |].
    rewrite Hn, Hv, Hcnt'. subst st0. cbn. repeat split; (done || lia).
  - rewrite ring_push_full by lia. exists st0. cbn [bind snd].
    split; [done |]. split; [done |]. subst st0. cbn.
    repeat split; (done || lia).
Qed.

Lemma render_loop_session fuel st :
  session_ok st →
  (Z.to_nat (vera_clks st / vera_per_buffer) ≤ fuel)%nat →
  ∃ st', render_loop fuel st = Ret st'
    ∧ session_ok st' ∧ num_bufs st' = num_bufs st
    ∧ vera_clks st' < vera_per_buffer
    ∧ buf_cnt st ≤ buf_cnt st'.
Proof.
  revert st. induction fuel as [| fuel IH]; intros st Hok Hfuel;
    cbn [render_loop];
    destruct (Z.leb_spec vera_per_buffer (vera_clks st)) as [Hge | Hlt];
    try (exists st; split; [done |]; split; [done |];
         repeat split; (done || lia)).
  - exfalso. change vera_per_buffer with 131072 in *.
    Z.to_euclidean_division_equations. lia.
  - destruct (render_buffer_session st Hok) as (st1 & -> & Hok1 & Hn1 & Hv1 & Hc1).
    cbn [bind].
    destruct (IH st1 Hok1) as (st' & -> & Hok' & Hn' & Hv' & Hc').
    { rewrite Hv1. unfold sub, to_int, wrap.
      change vera_per_buffer with 131072 in *.
      change (2 ^ (32 - 1)) with 2147483648. change (2 ^ 32) with 4294967296.
      Z.to_euclidean_division_equations. lia. }
    exists st'. split; [done |]. split; [done |].
    repeat split; (done || lia).
Qed.

Lemma audio_render_session st (n : Z) :
  session_ok st →
  ∃ st', audio_render st n = Ret st'
    ∧ session_ok st' ∧ num_bufs st' = num_bufs st
    ∧ vera_clks st' < vera_per_buffer
    ∧ buf_cnt st ≤ buf_cnt st'.
Proof.
  intros Hok. pose proof (ok_dev st Hok) as Hdev. unfold audio_render.
  destruct (Z.eqb_spec (audio_dev st) 0); [lia |].
  match goal with |- context [render_loop _ ?s] => set (st2 := s) end.
  assert (Hok2 : session_ok st2 ∧ num_bufs st2 = num_bufs st
                 ∧ buf_cnt st2 = buf_cnt st).
  { subst st2. cbn.
    destruct (8 <? _); cbn; (split; [by apply (session_ok_ext st) | done]). }
  destruct Hok2 as (Hok2 & Hn2 & Hc2).
  destruct (render_loop_session (loop_bound st2) st2 Hok2)
    as (st' & -> & Hok' & Hn' & Hv' & Hc'); [done |].
  exists st'. split; [done |]. split; [done |]. repeat split; (done || lia).
Qed.



Lemma callback_empty_any st (stream : list Z) :
  session_ok st → buf_cnt st = 0 →
  audio_callback st stream (2 * SAMPLES_PER_BUFFER * sizeof_int16)
    = Ret (st, memset stream 0 1024).
Proof.
  intros Hok Hcnt. pose proof (ok_dev st Hok).
  unfold audio_callback.
  destruct (Z.eqb_spec (audio_dev st) 0); [lia |].
  rewrite expected_bytes.
  change (2 * SAMPLES_PER_BUFFER * sizeof_int16) with 1024.
  by rewrite Z.eqb_refl, Hcnt.
Qed.

(** The state a pop leaves does not depend on the output region. *)
Lemma callback_pop_region st (bufs : list frame) (buf : frame) :
  audio_dev st ≠ 0 → buf_cnt st ≠ 0 →
  buffers st = Some bufs → slot_at bufs (rdidx st) = Some buf →
  ∃ st', ∀ stream : list Z,
    audio_callback st stream (2 * SAMPLES_PER_BUFFER * sizeof_int16)
      = Ret (st', memcpy stream (frame_bytes buf) 1024).
Proof.
  intros Hdev Hcnt Hbufs Hbuf. eexists. intros stream.
  unfold audio_callback.
  destruct (Z.eqb_spec (audio_dev st) 0); [done |].
  rewrite expected_bytes.
  change (2 * SAMPLES_PER_BUFFER * sizeof_int16) with 1024.
  rewrite Z.eqb_refl. cbn [negb].
  destruct (Z.eqb_spec (buf_cnt st) 0); [done |].
  rewrite Hbufs. cbn [of_option bind]. rewrite Hbuf. cbn [of_option bind].
  reflexivity.
Qed.

Lemma callback_pop_any st f q (stream : list Z) :
  ring_holds st (f :: q) →
  ∃ st', audio_callback st stream (2 * SAMPLES_PER_BUFFER * sizeof_int16)
         = Ret (st', memcpy stream (frame_bytes f) 1024)
    ∧ ring_holds st' q
    ∧ same_session st st'.
Proof.
  intros Hq.
  destruct (callback_pop st f q (replicate (Z.to_nat 1024) 0) Hq)
    as (st1 & Hpop & Hq1 & Hsame); [by rewrite length_replicate |].
  destruct Hq as (Hok & Hlen & Hslots).
  destruct (Hslots 0%nat f eq_refl) as (bufs & Hbufs & Hhead).
  pose proof (ok_rd st Hok) as Hrd. pose proof (ok_dev st Hok) as Hdev.
  assert (Hrd0 : ring_index st (Z.of_nat 0) = rdidx st).
  { unfold ring_index. cbn. rewrite Z.add_0_r.
    destruct (Z.ltb_spec (rdidx st) (num_bufs st)); [done | lia]. }
  rewrite Hrd0 in Hhead.
  destruct (callback_pop_region st bufs f) as (st' & Hany); try done.
  { lia. } { cbn [length] in Hlen. lia. }
  rewrite Hany in Hpop. injection Hpop as -> _.
  exists st1. by rewrite Hany.
Qed.


Lemma ring_holds_ext st st' q :
  ring_holds st q →
  audio_dev st' = audio_dev st → num_bufs st' = num_bufs st →
  buffers st' = buffers st → rdidx st' = rdidx st →
  wridx st' = wridx st → buf_cnt st' = buf_cnt st →
  ring_holds st' q.
Proof.
  intros (Hok & Hlen & Hslots) E1 E2 E3 E4 E5 E6.
  split; [by apply (session_ok_ext st) |]. split; [by rewrite E6 |].
  intros k f Hk. destruct (Hslots k f Hk) as (bufs & Hbufs & Hslot).
  exists bufs. unfold ring_index in *. by rewrite E2, E3, E4.
Qed.

(** X8. One iteration of the render loop asks the three sources for a
    buffer each, in the order PSG, PCM, FM, whether or not the ring has
    room: with room their mix is queued behind the frames already there,
    without room it is dropped and the ring is left as it was, while the
    sources have advanced all the same. *)
Theorem render_trigger_queues_or_drops st q
    (psg_buf pcm_buf ym_buf : frame) (c1 c2 c3 : chips_t) :
  ring_holds st q →
  psg_render (chips st) SAMPLES_PER_BUFFER = (psg_buf, c1) →
  pcm_render c1 SAMPLES_PER_BUFFER = (pcm_buf, c2) →
  YM_stream_update c2 SAMPLES_PER_BUFFER = (ym_buf, c3) →
  ∃ st', render_buffer st = Ret st'
    ∧ chips st' = c3
    ∧ renders st' = renders st + 1
    ∧ vera_clks st' = sub (vera_clks st) vera_per_buffer
    ∧ ring_holds st'
        (if buf_cnt st <? num_bufs st
         then q ++ [mix_frame psg_buf pcm_buf ym_buf] else q)
    ∧ (num_bufs st ≤ buf_cnt st →
       buffers st' = buffers st ∧ rdidx st' = rdidx st
       ∧ wridx st' = wridx st ∧ buf_cnt st' = buf_cnt st).
Proof.
  intros Hq Hpsg Hpcm Hym. unfold render_buffer.
  cbn [chips set_vera_clks]. rewrite Hpsg, Hpcm, Hym.
  set (st0 := count_render _).
  assert (Hq0 : ring_holds st0 q) by (by apply (ring_holds_ext st)).
  change (buf_cnt st) with (buf_cnt st0).
  change (num_bufs st) with (num_bufs st0).
  destruct (Z.ltb_spec (buf_cnt st0) (num_bufs st0)) as [Hfree | Hfull].
  - destruct (ring_push_ok st0 q psg_buf pcm_buf ym_buf Hq0 Hfree)
      as (st' & -> & Hq' & Hsame).
    destruct Hsame as (_ & _ & Hv & _ & Hr & Hc & _).
    exists st'. cbn [bind snd]. split; [done |].
    rewrite Hc, Hr, Hv.
    split; [done |]. split; [done |]. split; [done |]. split; [done |].
    intros Hfull. lia.
  - rewrite ring_push_full by lia. exists st0. cbn [bind snd].
    split; [done |].
    split; [done |]. split; [done |]. split; [done |]. split; [done |].
    done.
Qed.

(** X9. What one [audio_render] call does to the clocks. When the carried
    ticks plus the new ones exceed 8, whole groups of 8 are converted at
    25 device ticks each and the call renders one buffer per threshold
    reached, several if need be; otherwise the ticks are only carried
    and nothing is rendered. *)
Theorem render_call_exact st (n : Z) :
  session_ok st → clocks_ok st → 0 ≤ n ≤ max_cpu_clocks →
  ∃ st', audio_render st n = Ret st'
    ∧ if 8 <? cpu_clks st + n then
        cpu_clks st' = (cpu_clks st + n) mod 8
        ∧ vera_clks st'
          = (vera_clks st + 25 * ((cpu_clks st + n) / 8)) mod vera_per_buffer
        ∧ renders st' - renders st
          = (vera_clks st + 25 * ((cpu_clks st + n) / 8)) / vera_per_buffer
      else
        cpu_clks st' = cpu_clks st + n
        ∧ vera_clks st' = vera_clks st
        ∧ renders st' = renders st.
Proof.
  intros Hok [Hcpu Hvera] Hn. pose proof (ok_dev st Hok) as Hdev.
  unfold max_cpu_clocks in Hn. change vera_per_buffer with 131072 in *.
  unfold audio_render.
  destruct (Z.eqb_spec (audio_dev st) 0); [lia |].
  rewrite (add_id (cpu_clks st) n) by (apply is_int_bounds; lia).
  cbn [cpu_clks set_cpu_clks].
  destruct (Z.ltb_spec 8 (cpu_clks st + n)) as [Hconv | Hkeep].
  - cbn.
    set (c := (cpu_clks st + n) / 8).
    assert (Hc : Z.quot (cpu_clks st + n) 8 = c)
      by (apply Z.quot_div_nonneg; lia).
    assert (Hc8 : 0 ≤ c ∧ 8 * c ≤ cpu_clks st + n < 8 * c + 8)
      by (subst c; Z.to_euclidean_division_equations; lia).
    rewrite (div_id (cpu_clks st + n) 8) by (apply is_int_bounds; lia).
    rewrite Hc.
    rewrite (mul_id c 8), (mul_id c 25) by (apply is_int_bounds; lia).
    rewrite (sub_id (cpu_clks st + n)) by (apply is_int_bounds; lia).
    rewrite (add_id (vera_clks st)) by (apply is_int_bounds; lia).
    match goal with |- context [render_loop _ ?s] => set (st2 := s) end.
    destruct (render_loop_ok (loop_bound st2) st2)
      as (st' & Hloop & Hok' & Hv' & Hr' & Hc' & Hd').
    + by apply (session_ok_ext st).
    + subst st2. cbn. unfold INT_MAX. lia.
    + done.
    + exists st'. split; [done |].
      subst st2. cbn in Hv', Hr', Hc'. change vera_per_buffer with 131072 in *.
      rewrite (Z.mul_comm 25 c), Hv', Hr', Hc'.
      split; [| split; [done | lia]].
      subst c. Z.to_euclidean_division_equations. lia.
  - match goal with |- context [render_loop _ ?s] => set (st2 := s) end.
    destruct (render_loop_ok (loop_bound st2) st2)
      as (st' & Hloop & Hok' & Hv' & Hr' & Hc' & Hd').
    + by apply (session_ok_ext st).
    + subst st2. cbn. unfold INT_MAX. lia.
    + done.
    + exists st'. split; [done |].
      subst st2. cbn in Hv', Hr', Hc'. change vera_per_buffer with 131072 in *.
      rewrite Hv', Hr', Hc'.
      split; [done |].
      split; Z.to_euclidean_division_equations; lia.
Qed.

End Interleave.

(** ** More on the mixer *)

(** X10. The mix of three 16-bit samples lies between the smallest and
    the largest of them, so three equal samples come out unchanged, and it
    does not depend on which source supplied which sample. *)
Theorem mix_between_extremes (a b c : Z) :
  is_int16 a → is_int16 b → is_int16 c →
  Z.min a (Z.min b c) ≤ mix_sample a b c ≤ Z.max a (Z.max b c)
  ∧ mix_sample a b c = mix_sample b a c
  ∧ mix_sample a b c = mix_sample a c b
  ∧ mix_sample a a a = a.
Proof.
  intros Ha Hb Hc.
  rewrite !mix_sample_quot by done. unfold is_int16 in *.
  repeat split; Z.to_euclidean_division_equations; lia.
Qed.

(** X11. The mixing loop writes every sample of a slot: what it leaves
    does not depend on what the slot held, has the slot's size and holds
    16-bit values only. *)
Theorem mix_overwrites_whole_slot (buf buf' psg_buf pcm_buf ym_buf : frame) :
  frame_sized buf → frame_sized buf' →
  mix_into buf psg_buf pcm_buf ym_buf = mix_into buf' psg_buf pcm_buf ym_buf
  ∧ frame_sized (mix_into buf psg_buf pcm_buf ym_buf)
  ∧ Forall is_int16 (mix_into buf psg_buf pcm_buf ym_buf).
Proof.
  intros Hbuf Hbuf'. rewrite !mix_into_frame by done.
  split; [done |]. split; [apply mix_frame_sized | apply mix_frame_int16].
Qed.

(** ** The claims on a concrete session *)

Lemma open_session_ok : session_ok open_session.
Proof.
  apply (audio_init_opens_session plain_host closed_session None 3);
    reflexivity.
Qed.

Lemma render_trigger_count_witness :
  ∃ st', render_all open_session [41936; 8; 83887; 5] = Ret st'
    ∧ 25 * total_ticks [41936; 8; 83887; 5]
      = 8 * (vera_per_buffer * (renders st' - renders open_session)
             + vera_clks st')
        + 25 * cpu_clks st'
    ∧ 0 ≤ vera_clks st' < vera_per_buffer
    ∧ (cpu_clks st' < 8 →
       renders st' - renders open_session
       = grouped_trigger_count [41936; 8; 83887; 5]).
Proof.
  apply (render_trigger_count open_session [41936; 8; 83887; 5]);
    [ apply open_session_ok | reflexivity | reflexivity
    | repeat constructor; unfold max_cpu_clocks; lia ].
Defined.

(** C1, refuted as stated. One call with 83887 ticks renders one buffer:
    10485 whole groups of 8 give 262125 device ticks, 19 short of two
    thresholds, while the exact conversion 83887 * 25 / 8 = 262146.875
    has passed two. *)
Lemma trigger_count_not_exact :
  result_map renders (render_all open_session [83887]) = Ret 1
  ∧ renders open_session = 0
  ∧ exact_trigger_count [83887] = 2.
Proof. repeat split; vm_compute; reflexivity. Qed.

(** C4, the failing input. [audio_render(8)] on a fresh open session
    leaves [cpu_clks = 8]: the test [cpu_clks > 8] skips the conversion of
    a remainder of exactly 8, so the remainder is not below 8. *)
Theorem render_8_keeps_remainder_8 :
  cpu_clks open_session = 0
  ∧ result_map cpu_clks (audio_render open_session 8) = Ret 8
  ∧ result_map vera_clks (audio_render open_session 8) = Ret 0
  ∧ ¬ (0 ≤ 8 < 8).
Proof. repeat split; try (vm_compute; reflexivity). lia. Qed.

(** A consequence of the same test: 41944 ticks render one buffer in one
    call and none when fed as 41936 then 8. *)
Lemma split_changes_trigger_count :
  result_map renders (render_all open_session [41944]) = Ret 1
  ∧ result_map renders (render_all open_session [41936; 8]) = Ret 0.
Proof. split; vm_compute; reflexivity. Qed.

(** Outside the range of [max_cpu_clocks] the product [c * 25] leaves the
    range of [int]: with the wrap of the model [INT_MAX] ticks leave a
    negative [vera_clks] and render nothing. *)
Lemma huge_tick_argument_overflows :
  result_map vera_clks (audio_render open_session INT_MAX)
    = Ret (-1879048217)
  ∧ result_map renders (audio_render open_session INT_MAX) = Ret 0.
Proof. split; vm_compute; reflexivity. Qed.

Lemma callback_mismatch_reported_witness :
  audio_callback open_session stale_region 1000
    = Ret (fprintf_stderr (Size_mismatch 1024 1000) open_session, stale_region)
  ∧ stderr (fprintf_stderr (Size_mismatch 1024 1000) open_session)
      = stderr open_session ++ [Size_mismatch 1024 1000]
  ∧ (∀ code err,
       audio_callback open_session stale_region 1000 ≠ Exit code err).
Proof.
  apply (callback_mismatch_reported open_session stale_region 1000);
    vm_compute; discriminate.
Defined.

(** C2, refuted as stated. Asked for 4 bytes instead of 1024 the callback
    returns; it does not end the process. *)
Lemma callback_mismatch_no_exit :
  result_map (λ r, stderr r.1) (audio_callback open_session [7; 7; 7; 7] 4)
    = Ret [Size_mismatch 1024 4]
  ∧ ¬ ∃ code err,
        audio_callback open_session [7; 7; 7; 7] 4 = Exit code err.
Proof.
  split; [vm_compute; reflexivity |].
  intros (code & err & H).
  assert (E : result_map (λ _, tt) (audio_callback open_session [7; 7; 7; 7] 4)
              = Ret tt) by (vm_compute; reflexivity).
  rewrite H in E. discriminate E.
Qed.

Lemma callback_overwrites_region_witness :
  (1024 = 2 * SAMPLES_PER_BUFFER * sizeof_int16 →
   ∃ st' out, audio_callback open_session stale_region 1024 = Ret (st', out)
     ∧ region_written open_session 1024 out
     ∧ length out = length stale_region
     ∧ drop (Z.to_nat 1024) out = drop (Z.to_nat 1024) stale_region)
  ∧ (1024 ≠ 2 * SAMPLES_PER_BUFFER * sizeof_int16 →
     ∃ st', audio_callback open_session stale_region 1024
            = Ret (st', stale_region)).
Proof.
  apply (callback_overwrites_region open_session stale_region 1024);
    [ apply open_session_ok | vm_compute; lia ].
Defined.

(** C3, refuted as stated. Asked for 4 bytes the callback returns with the
    region as it found it: on the empty ring the 4 bytes are not zeroed. *)
Lemma callback_mismatch_keeps_stale_bytes :
  buf_cnt open_session = 0
  ∧ result_map snd (audio_callback open_session [7; 7; 7; 7] 4)
    = Ret [7; 7; 7; 7]
  ∧ ¬ region_written open_session 4 [7; 7; 7; 7].
Proof.
  assert (E : buf_cnt open_session = 0) by (vm_compute; reflexivity).
  split; [done |]. split; [vm_compute; reflexivity |].
  unfold region_written. rewrite E. cbn. discriminate.
Qed.

Lemma ring_full_after_capacity_pushes_witness :
  (∃ st1, push_all three_triples open_session
          = Ret (replicate (length three_triples) true, st1)
     ∧ buf_cnt st1 = num_bufs open_session
     ∧ ring_push (triple 4).1.1 (triple 4).1.2 (triple 4).2 st1
       = Ret (false, st1))
  ∧ (∀ fs', fs' `prefix_of` three_triples → fs' ≠ three_triples →
       ∃ st1 st2, push_all fs' open_session
                  = Ret (replicate (length fs') true, st1)
         ∧ ring_push (triple 4).1.1 (triple 4).1.2 (triple 4).2 st1
           = Ret (true, st2))
  ∧ audio_callback open_session stale_region
      (2 * SAMPLES_PER_BUFFER * sizeof_int16)
    = Ret (open_session, replicate (Z.to_nat 1024) 0).
Proof.
  apply (ring_full_after_capacity_pushes open_session three_triples
           (triple 4) stale_region);
    [ apply open_session_ok | reflexivity | reflexivity | reflexivity ].
Defined.

(** C5, refuted as stated. With 3 slots, after 2 successful pushes the
    third push succeeds as well: it is not refused. *)
Lemma third_push_of_three_succeeds :
  num_bufs open_session = 3
  ∧ buf_cnt open_session = 0
  ∧ result_map fst (push_all (take 2 three_triples) open_session)
    = Ret [true; true]
  ∧ result_map fst
      (do r <- push_all (take 2 three_triples) open_session;
       ring_push (triple 30).1.1 (triple 30).1.2 (triple 30).2 r.2)
    = Ret true.
Proof. repeat split; vm_compute; reflexivity. Qed.

Lemma ring_overflow_drops_newest_witness :
  ∃ st1 st2,
    push_all three_triples open_session
      = Ret (replicate (length three_triples) true, st1)
    ∧ ring_push (triple 4).1.1 (triple 4).1.2 (triple 4).2 st1
      = Ret (false, st1)
    ∧ pop_all [stale_region; stale_region; stale_region] st1
      = Ret ((λ t, frame_bytes (mixed t)) <$> three_triples, st2)
    ∧ buf_cnt st2 = 0
    ∧ audio_callback st2 stale_region (2 * SAMPLES_PER_BUFFER * sizeof_int16)
      = Ret (st2, replicate (Z.to_nat 1024) 0).
Proof.
  apply (ring_overflow_drops_newest open_session three_triples (triple 4)
           [stale_region; stale_region; stale_region] stale_region);
    [ apply open_session_ok | reflexivity | reflexivity | reflexivity
    | repeat constructor | reflexivity ].
Defined.

Lemma none_device_disables_audio_witness :
  ∃ st', audio_init plain_host closed_session (Some "none"%string) 8 = Ret st'
    ∧ st' = audio_close closed_session
    ∧ audio_dev st' = 0
    ∧ (audio_dev closed_session = 0 → st' = closed_session)
    ∧ (buffers st' = buffers closed_session ∨ buffers st' = None)
    ∧ num_bufs st' = num_bufs closed_session
    ∧ (∀ k, audio_render st' k = Ret st')
    ∧ (∀ ticks, render_all st' ticks = Ret st')
    ∧ audio_close st' = st'
    ∧ (∀ stream len, audio_callback st' stream len = Ret (st', stream)).
Proof.
  apply (none_device_disables_audio plain_host closed_session 8).
  vm_compute. discriminate.
Defined.

(** ** The further properties on concrete sessions *)

Lemma busy_session_ok : session_ok busy_session.
Proof. apply session_okb_sound. vm_compute. reflexivity. Qed.

Lemma busy_session_cursors :
  rdidx busy_session = 4 ∧ wridx busy_session = 5
  ∧ buf_cnt busy_session = 1 ∧ num_bufs busy_session = 8.
Proof. repeat split; vm_compute; reflexivity. Qed.

Lemma plain_host_grants (k : nat) : malloc_fails plain_host k = false.
Proof. reflexivity. Qed.

Lemma audio_init_outcome_witness :
  audio_init starved_host closed_session (Some "hw:0"%string) 3
    = Exit 1 [Cannot_allocate]
  ∧ audio_init deaf_host closed_session None 3 = Exit (-1) [Open_failed].
Proof.
  split.
  - apply (audio_init_outcome starved_host closed_session
             (Some "hw:0"%string) 3); [reflexivity |].
    exists 2%nat. split; [vm_compute; lia | reflexivity].
  - apply (audio_init_outcome deaf_host closed_session None 3);
      [reflexivity | intros k _; reflexivity | reflexivity].
Defined.

Lemma init_establishes_session_witness :
  session_ok open_session ∧ ring_holds open_session []
  ∧ num_bufs open_session = clamp_bufs 3
  ∧ (clocks_ok closed_session → clocks_ok open_session).
Proof.
  apply (init_establishes_session plain_host closed_session None 3
           open_session);
    reflexivity.
Defined.

Lemma init_keeps_cursors_and_clocks_witness :
  (rdidx reopened_session = rdidx busy_session
   ∧ wridx reopened_session = wridx busy_session
   ∧ buf_cnt reopened_session = buf_cnt busy_session
   ∧ vera_clks reopened_session = vera_clks busy_session
   ∧ cpu_clks reopened_session = cpu_clks busy_session)
  ∧ (rdidx (audio_close busy_session) = rdidx busy_session
     ∧ wridx (audio_close busy_session) = wridx busy_session
     ∧ buf_cnt (audio_close busy_session) = buf_cnt busy_session
     ∧ vera_clks (audio_close busy_session) = vera_clks busy_session
     ∧ cpu_clks (audio_close busy_session) = cpu_clks busy_session).
Proof.
  apply (init_keeps_cursors_and_clocks plain_host busy_session None 3
           reopened_session).
  reflexivity.
Defined.


Lemma reopen_smaller_push_out_of_bounds_witness :
  ∃ st1, audio_init plain_host busy_session None 3 = Ret st1
    ∧ ring_push (flat 1) (flat 2) (flat 3) st1 = Undef
    ∧ render_buffer st1 = Undef.
Proof.
  apply (reopen_smaller_push_out_of_bounds plain_host busy_session None 3);
    [ by vm_compute | by vm_compute | reflexivity
    | apply plain_host_grants | by vm_compute ].
Defined.



Lemma render_trigger_queues_or_drops_witness :
  ∃ st', render_buffer open_session = Ret st'
    ∧ chips st' = 3
    ∧ renders st' = renders open_session + 1
    ∧ vera_clks st' = sub (vera_clks open_session) vera_per_buffer
    ∧ ring_holds st'
        (if buf_cnt open_session <? num_bufs open_session
         then [] ++ [mix_frame (flat 0) (flat 5) (flat (-2))] else [])
    ∧ (num_bufs open_session ≤ buf_cnt open_session →
       buffers st' = buffers open_session ∧ rdidx st' = rdidx open_session
       ∧ wridx st' = wridx open_session ∧ buf_cnt st' = buf_cnt open_session).
Proof.
  apply (render_trigger_queues_or_drops open_session []
           (flat 0) (flat 5) (flat (-2)) 1 2 3);
    [ apply ring_holds_empty; [apply open_session_ok | reflexivity]
    | vm_compute; reflexivity | vm_compute; reflexivity
    | vm_compute; reflexivity ].
Defined.

Lemma open_session_clocks : clocks_ok open_session.
Proof. split; by vm_compute. Qed.

Lemma render_call_exact_witness :
  ∃ st', audio_render open_session 300000 = Ret st'
    ∧ if 8 <? cpu_clks open_session + 300000 then
        cpu_clks st' = (cpu_clks open_session + 300000) mod 8
        ∧ vera_clks st'
          = (vera_clks open_session
             + 25 * ((cpu_clks open_session + 300000) / 8))
            mod vera_per_buffer
        ∧ renders st' - renders open_session
          = (vera_clks open_session
             + 25 * ((cpu_clks open_session + 300000) / 8))
            / vera_per_buffer
      else
        cpu_clks st' = cpu_clks open_session + 300000
        ∧ vera_clks st' = vera_clks open_session
        ∧ renders st' = renders open_session.
Proof.
  apply (render_call_exact open_session 300000);
    [ apply open_session_ok | apply open_session_clocks
    | unfold max_cpu_clocks; lia ].
Defined.

Lemma mix_between_extremes_witness :
  Z.min (-32768) (Z.min 32767 5) ≤ mix_sample (-32768) 32767 5
    ≤ Z.max (-32768) (Z.max 32767 5)
  ∧ mix_sample (-32768) 32767 5 = mix_sample 32767 (-32768) 5
  ∧ mix_sample (-32768) 32767 5 = mix_sample (-32768) 5 32767
  ∧ mix_sample (-32768) (-32768) (-32768) = -32768.
Proof.
  apply (mix_between_extremes (-32768) 32767 5); unfold is_int16; lia.
Defined.

Lemma mix_overwrites_whole_slot_witness :
  mix_into (flat 9) (flat 1) (flat 2) (flat 4)
    = mix_into (flat (-9)) (flat 1) (flat 2) (flat 4)
  ∧ frame_sized (mix_into (flat 9) (flat 1) (flat 2) (flat 4))
  ∧ Forall is_int16 (mix_into (flat 9) (flat 1) (flat 2) (flat 4)).
Proof.
  apply (mix_overwrites_whole_slot (flat 9) (flat (-9))); reflexivity.
Defined.

